(** * eduhelx-jupyterlab-student-ext: assignment entities, synchronisation
      provider, submit form and date editing

    A shallow embedding of the TypeScript sources:
    - [src/api/assignment.ts]      the [Assignment] entity ([Assignment]),
    - the assignment context provider (poll loop and websocket effect)
      ([AssignmentProvider], [PushChannel]),
    - the submit form ([SubmitForm]),
    - the instructor's assignment-info panel with its debounced date
      fields ([AssignmentInfo]).

    Conventions: a value of type [T | null] is an [option T] ([None] is
    [null]); a value of type [T | undefined] is an [undefinable T]; a JS
    number that may be [NaN] is an [option Z] ([None] is [NaN]). *)

From Stdlib Require Import Sorted.
From stdpp Require Import base list strings numbers.

Set Default Proof Using "Type".

(* ===================================================================== *)
(** ** Platform values *)
(* ===================================================================== *)

Module Js.

(** [T | undefined]. *)
Inductive undefinable (A : Type) : Type :=
| Undefined
| Defined (a : A).
Arguments Undefined {A}.
Arguments Defined {A} a.

(** A [Date] object; [getTime] is [NaN] for an Invalid Date. *)
Record Date : Type := mkDate { getTime : option Z }.

(** Truthiness of a [string | null]: [null] and the empty string are falsy. *)
Definition truthy (s : option string) : bool :=
  match s with
  | None => false
  | Some s => negb (String.eqb s "")
  end.

(** ToNumber of a [Date | null] operand of a relational operator:
    [null] converts to [0], a date to its time value. *)
Definition toNumber (d : option Date) : option Z :=
  match d with
  | None => Some 0%Z
  | Some d => getTime d
  end.

(** [x <= y] and [x >= y] on numbers: [false] as soon as one side is [NaN]. *)
Definition num_le (x y : option Z) : bool :=
  match x, y with
  | Some a, Some b => (a <=? b)%Z
  | _, _ => false
  end.

Definition num_ge (x y : option Z) : bool := num_le y x.

(** [b - a] on numbers. *)
Definition num_sub (x y : option Z) : option Z :=
  match x, y with
  | Some a, Some b => Some (a - b)%Z
  | _, _ => None
  end.

(** [Array.prototype.sort(comparefn)]: the array is sorted in place and
    returned; the sort is stable, and a comparator result that is [NaN] counts
    as [+0].  [sorts_after x y] is [comparefn(x, y) > 0].  For a consistent
    comparator every stable sort computes the same array; it is written here
    as an insertion sort. *)
Section ArraySort.
Context {A : Type} (comparefn : A → A → option Z).

Definition sorts_after (x y : A) : bool :=
  match comparefn x y with
  | Some v => (0 <? v)%Z
  | None => false
  end.

Fixpoint sort_insert (x : A) (l : list A) : list A :=
  match l with
  | [] => [x]
  | y :: l' => if sorts_after x y then y :: sort_insert x l' else x :: l
  end.

Definition Array_sort (l : list A) : list A := foldr sort_insert [] l.

End ArraySort.

End Js.

Import Js.

(* ===================================================================== *)
(** ** [src/api/assignment.ts] *)
(* ===================================================================== *)

Module Assignment.

Section Entity.
(** [ISubmission] and [SubmissionResponse] come from [./submission] and
    [./api-responses]; the entity only reads [submissionTime] and converts
    with [Submission.fromResponse].  [new Date(string)] is the platform's
    date parser. *)
Context {Submission SubmissionResponse : Type}.
Context (submissionTime : Submission → Date).
Context (Submission_fromResponse : SubmissionResponse → Submission).
Context (Date_parse : string → option Z).

Definition new_Date (s : string) : Date := mkDate (Date_parse s).

(** The wire shape read by [fromResponse]. *)
Record AssignmentResponse : Type := mkAssignmentResponse {
  id : Z;
  name : string;
  directory_path : string;
  absolute_directory_path : string;
  created_date : string;
  adjusted_available_date : option string;
  adjusted_due_date : option string;
  last_modified_date : string;
  is_deferred : bool;
  is_extended : bool;
  is_created : bool;
  is_available : bool;
  is_closed : bool;
  submissions : undefinable (list SubmissionResponse)
}.

(** The private fields of [class Assignment]. *)
Record Assignment : Type := mkAssignment {
  _id : Z;
  _name : string;
  _directoryPath : string;
  _absoluteDirectoryPath : string;
  _createdDate : Date;
  _adjustedAvailableDate : option Date;
  _adjustedDueDate : option Date;
  _lastModifiedDate : Date;
  _isDeferred : bool;
  _isExtended : bool;
  _isCreated : bool;
  _isAvailable : bool;
  _isClosed : bool;
  _submissions : undefinable (list Submission)
}.

Definition set_submissions (a : Assignment) (l : list Submission) : Assignment :=
  mkAssignment (_id a) (_name a) (_directoryPath a) (_absoluteDirectoryPath a)
    (_createdDate a) (_adjustedAvailableDate a) (_adjustedDueDate a)
    (_lastModifiedDate a) (_isDeferred a) (_isExtended a) (_isCreated a)
    (_isAvailable a) (_isClosed a) (Defined l).

(** The plain getters return a field. *)
Definition adjustedAvailableDate (a : Assignment) := _adjustedAvailableDate a.
Definition adjustedDueDate (a : Assignment) := _adjustedDueDate a.
Definition isCreated (a : Assignment) := _isCreated a.
Definition isAvailable (a : Assignment) := _isAvailable a.
Definition isClosed (a : Assignment) := _isClosed a.
Definition get_submissions (a : Assignment) := _submissions a.

(** [(a, b) => b.submissionTime.getTime() - a.submissionTime.getTime()] *)
Definition by_time_desc (a b : Submission) : option Z :=
  num_sub (getTime (submissionTime b)) (getTime (submissionTime a)).

(** The submission time as a number, for submissions with a valid date. *)
Definition time_is (s : Submission) (t : Z) : Prop :=
  getTime (submissionTime s) = Some t.

Definition valid_time (s : Submission) : Prop :=
  is_Some (getTime (submissionTime s)).

(** [get activeSubmission()]: the value read, and the object afterwards
    ([sort] works on [this._submissions] itself). *)
Definition activeSubmission (a : Assignment)
  : undefinable (option Submission) * Assignment :=
  match _submissions a with
  | Undefined => (Undefined, a)
  | Defined [] => (Defined None, a)
  | Defined l =>
      let sorted := Array_sort by_time_desc l in
      (match sorted with
       | s :: _ => Defined (Some s)
       | [] => Undefined
       end, set_submissions a sorted)
  end.

(** [static fromResponse(data)] *)
Definition fromResponse (data : AssignmentResponse) : Assignment :=
  mkAssignment
    (id data)
    (name data)
    (directory_path data)
    (absolute_directory_path data)
    (new_Date (created_date data))
    (if truthy (adjusted_available_date data)
     then new_Date <$> adjusted_available_date data else None)
    (if truthy (adjusted_due_date data)
     then new_Date <$> adjusted_due_date data else None)
    (new_Date (last_modified_date data))
    (is_deferred data)
    (is_extended data)
    (is_created data)
    (is_available data)
    (is_closed data)
    (match submissions data with
     | Undefined => Undefined
     | Defined l => Defined (Submission_fromResponse <$> l)
     end).

(** The properties of [IAssignment], and what reading one does to the
    object. *)
Inductive Property : Type :=
| P_id | P_name | P_directoryPath | P_absoluteDirectoryPath | P_createdDate
| P_adjustedAvailableDate | P_adjustedDueDate | P_lastModifiedDate
| P_isDeferred | P_isExtended | P_isCreated | P_isAvailable | P_isClosed
| P_submissions | P_activeSubmission.

Definition after_read (p : Property) (a : Assignment) : Assignment :=
  match p with
  | P_activeSubmission => snd (activeSubmission a)
  | _ => a
  end.

(** The invariant of the data model: [isClosed ⇒ isAvailable ⇒ isCreated],
    and [isCreated] exactly when both adjusted dates are set. *)
Definition facets_consistent (a : Assignment) : Prop :=
  (isClosed a = true → isAvailable a = true) ∧
  (isAvailable a = true → isCreated a = true) ∧
  (isCreated a = true ↔
     adjustedAvailableDate a ≠ None ∧ adjustedDueDate a ≠ None).

(** The same statement on the wire flags and date strings. *)
Definition response_consistent (data : AssignmentResponse) : Prop :=
  (is_closed data = true → is_available data = true) ∧
  (is_available data = true → is_created data = true) ∧
  (is_created data = true ↔
     truthy (adjusted_available_date data) = true ∧
     truthy (adjusted_due_date data) = true).

(** [a] was submitted no earlier than [b]. *)
Definition newer_or_same (a b : Submission) : Prop :=
  ∃ ta tb, time_is a ta ∧ time_is b tb ∧ (tb ≤ ta)%Z.

(** The submissions are stored newest first. *)
Definition newest_first (l : list Submission) : Prop :=
  StronglySorted newer_or_same l.

(** [adjustedDueDate >= adjustedAvailableDate], as JavaScript compares. *)
Definition due_ge_available (a : Assignment) : bool :=
  num_ge (toNumber (adjustedDueDate a)) (toNumber (adjustedAvailableDate a)).

End Entity.

Arguments AssignmentResponse : clear implicits.
Arguments Assignment : clear implicits.

End Assignment.

(* ===================================================================== *)
(** ** The assignment context provider: poll loop *)
(* ===================================================================== *)

Module AssignmentProvider.

Section Provider.
Context {IAssignment ICurrentAssignment : Type}.

(** [GetAssignmentsResponse] *)
Record GetAssignmentsResponse : Type := mkResponse {
  r_assignments : option (list IAssignment);
  r_currentAssignment : option ICurrentAssignment
}.

(** How the promise of [getAssignments(currentPath)] settles. *)
Inductive FetchResult : Type :=
| Fulfilled (value : GetAssignmentsResponse)
| Rejected (e : string).

Inductive SnackbarType : Type := success | warning | error.

Record SnackbarMessage : Type := mkMessage {
  type : SnackbarType;
  message : string
}.

(** Where the poll chain of one run of the effect stands. *)
Inductive PollStatus : Type :=
| Waiting     (* [setTimeout(poll, 2500)] is pending *)
| Fetching    (* [poll] is suspended at [await getAssignments(currentPath)] *)
| Stopped.    (* [poll] returned at [if (cancelled) return] *)

(** One run of the effect [useEffect(..., [currentPath])]: the variables its
    closures share ([currentPath] as captured, [let cancelled]) and its poll
    chain. *)
Record EffectRun : Type := mkRun {
  run_path : option string;
  cancelled : bool;
  status : PollStatus
}.

Record State : Type := mkState {
  mounted : bool;
  currentPath : option string;
  currentAssignment : undefinable (option ICurrentAssignment);
  assignments : undefinable (option (list IAssignment));
  (* every run of the poll effect, oldest first; the last one is current *)
  runs : list EffectRun;
  (* [snackbar.open] calls, newest first *)
  snackbar : list SnackbarMessage;
  (* [console.error] calls, newest first *)
  console : list string
}.

Definition setSlots (st : State)
    (a : undefinable (option (list IAssignment)))
    (c : undefinable (option ICurrentAssignment)) : State :=
  mkState (mounted st) (currentPath st) c a (runs st) (snackbar st) (console st).

Definition setRuns (st : State) (rs : list EffectRun) : State :=
  mkState (mounted st) (currentPath st) (currentAssignment st) (assignments st)
    rs (snackbar st) (console st).

Definition setRun (st : State) (i : nat) (r : EffectRun) : State :=
  setRuns st (<[i:=r]> (runs st)).

(** The cleanup of the current run: [cancelled = true]. *)
Definition cancel (r : EffectRun) : EffectRun :=
  mkRun (run_path r) true (status r).

Definition cleanup (st : State) : State :=
  match runs st with
  | [] => st
  | _ => setRuns st (alter cancel (pred (length (runs st))) (runs st))
  end.

(** The body of the effect for [currentPath = p]: both slots are reset,
    a fresh [cancelled = false], and the first [setTimeout(poll, 2500)]. *)
Definition runEffect (p : option string) (st : State) : State :=
  mkState (mounted st) p Undefined Undefined
    (runs st ++ [mkRun p false Waiting]) (snackbar st) (console st).

(** After the first render: [currentPath] is [null] and the effect ran. *)
Definition init : State :=
  runEffect None (mkState true None Undefined Undefined [] [] []).

(** [setCurrentPath(p)]: React re-renders only when the value changes; the
    previous run is cleaned up before the effect runs again. *)
Definition setCurrentPath (p : option string) (st : State) : State :=
  if negb (mounted st) then st
  else if decide (p = currentPath st) then st
  else runEffect p (cleanup st).

Definition catch_failure (e : string) (st : State) : State :=
  mkState (mounted st) (currentPath st) (currentAssignment st) (assignments st)
    (runs st)
    (mkMessage warning "Failed to pull assignments..." :: snackbar st)
    (e :: console st).

(** [poll] from [if (cancelled) return] on, for run [i], with [value] as the
    [try] block left it. *)
Definition resume (i : nat) (r : EffectRun)
    (value : undefinable GetAssignmentsResponse) (st : State) : State :=
  if cancelled r then setRun st i (mkRun (run_path r) (cancelled r) Stopped)
  else
    let st' :=
      match value with
      | Defined v =>
          setSlots st (Defined (r_assignments v)) (Defined (r_currentAssignment v))
      | Undefined => setSlots st Undefined Undefined
      end in
    setRun st' i (mkRun (run_path r) (cancelled r) Waiting).

(** The timer of run [i] fires and [poll] starts: with a path it suspends
    at the [await]; with [currentPath === null] it runs through. *)
Definition timerFired (i : nat) (st : State) : State :=
  match runs st !! i with
  | Some r =>
      match status r with
      | Waiting =>
          match run_path r with
          | Some _ => setRun st i (mkRun (run_path r) (cancelled r) Fetching)
          | None => resume i r Undefined st
          end
      | _ => st
      end
  | None => st
  end.

(** The fetch of run [i] settles and [poll] continues after the [await]. *)
Definition fetchSettled (i : nat) (res : FetchResult) (st : State) : State :=
  match runs st !! i with
  | Some r =>
      match status r with
      | Fetching =>
          match res with
          | Fulfilled v => resume i r (Defined v) st
          | Rejected e => resume i r Undefined (catch_failure e st)
          end
      | _ => st
      end
  | None => st
  end.

(** Unmounting runs the cleanup and disconnects [pathChanged]. *)
Definition unmount (st : State) : State :=
  let st' := cleanup st in
  mkState false (currentPath st') (currentAssignment st') (assignments st')
    (runs st') (snackbar st') (console st').

Inductive Event : Type :=
| PathChanged (p : option string)
| TimerFired (i : nat)
| FetchSettled (i : nat) (res : FetchResult)
| Unmounted.

Definition step (st : State) (ev : Event) : State :=
  match ev with
  | PathChanged p => setCurrentPath p st
  | TimerFired i => timerFired i st
  | FetchSettled i res => fetchSettled i res st
  | Unmounted => unmount st
  end.

Definition exec (st : State) (evs : list Event) : State := foldl step st evs.

(** The states the provider can be in. *)
Inductive reachable : State → Prop :=
| reachable_init : reachable init
| reachable_step st ev : reachable st → reachable (step st ev).

(** Every run but the current one has been cleaned up. *)
Definition older_runs_cancelled (st : State) : Prop :=
  ∀ i r, runs st !! i = Some r → S i < length (runs st) → cancelled r = true.

(** A run that has been cancelled stays cancelled, and no run disappears. *)
Definition keeps_cancelled (st st' : State) : Prop :=
  ∀ i r, runs st !! i = Some r →
    ∃ r', runs st' !! i = Some r' ∧ (cancelled r = true → cancelled r' = true).

(** The component is unmounted and every run is cancelled. *)
Definition torn_down (st : State) : Prop :=
  mounted st = false ∧ ∀ i r, runs st !! i = Some r → cancelled r = true.

(** The latest run polls the current path. *)
Definition current_run_polls_path (st : State) : Prop :=
  ∀ i r, runs st !! i = Some r → S i = length (runs st) →
         run_path r = currentPath st.

(** [loading], over the four slots of the provider. *)
Definition loading {IStudent ICourse : Type}
    (currentAssignment : undefinable (option ICurrentAssignment))
    (assignments : undefinable (option (list IAssignment)))
    (student : undefinable IStudent) (course : undefinable ICourse) : bool :=
  match currentAssignment, assignments, student, course with
  | Defined _, Defined _, Defined _, Defined _ => false
  | _, _, _, _ => true
  end.

(** One full poll attempt of run [i]: its timer fires and the fetch settles. *)
Definition attempt (i : nat) (res : FetchResult) (st : State) : State :=
  fetchSettled i res (timerFired i st).

End Provider.

Arguments State : clear implicits.
Arguments GetAssignmentsResponse : clear implicits.
Arguments FetchResult : clear implicits.
Arguments Event : clear implicits.

End AssignmentProvider.

(* ===================================================================== *)
(** ** The assignment context provider: websocket effect *)
(* ===================================================================== *)

Module PushChannel.

(** [const WEBSOCKET_REOPEN_DELAY = 1000]: the provider declares it and no
    code reads it; the effect below calls no [setTimeout]. *)
Definition WEBSOCKET_REOPEN_DELAY : Z := 1000.

Inductive ReadyState : Type := CONNECTING | OPEN | CLOSING | CLOSED.

(** A [WebSocket] object: its ready state and whether the effect has
    attached [triggerReconnect] as its ["close"] listener (no code path
    removes a listener). *)
Record Socket : Type := mkSocket {
  readyState : ReadyState;
  reconnects_on_close : bool
}.

Record State : Type := mkState {
  mounted : bool;
  (* every [WebSocket] constructed so far, oldest first *)
  sockets : list Socket;
  (* the [ws] state variable: an index into [sockets] *)
  ws : nat
}.

(** [socket.close()]: starts the closing handshake unless the socket is
    already closing or closed. *)
Definition close (s : Socket) : Socket :=
  match readyState s with
  | CONNECTING | OPEN => mkSocket CLOSING (reconnects_on_close s)
  | CLOSING | CLOSED => s
  end.

Definition closeSocket (i : nat) (st : State) : State :=
  mkState (mounted st) (alter close i (sockets st)) (ws st).

(** [new WebSocket(WEBSOCKET_URL)]: a connection attempt starts. *)
Definition newWebSocket (st : State) : State :=
  mkState (mounted st) (sockets st ++ [mkSocket CONNECTING false]) (ws st).

(** The body of [useEffect(..., [ws])] for the socket [i]. *)
Definition attach (s : Socket) : Socket := mkSocket (readyState s) true.

Definition runEffect (i : nat) (st : State) : State :=
  mkState (mounted st) (alter attach i (sockets st)) i.

(** [setWs(j)]: a mounted component re-renders, cleaning up the effect of
    the old socket ([ws.close()]) and running it for the new one; an
    unmounted component ignores the update. *)
Definition setWs (j : nat) (st : State) : State :=
  if mounted st then runEffect j (closeSocket (ws st) st) else st.

(** [triggerReconnect], as captured by the effect of socket [i]. *)
Definition triggerReconnect (i : nat) (st : State) : State :=
  let st1 := closeSocket i st in
  let j := length (sockets st1) in
  setWs j (newWebSocket st1).

(** After the first render: [useState(() => new WebSocket(URL))] and the
    effect. *)
Definition init : State :=
  runEffect 0 (newWebSocket (mkState true [] 0)).

Definition setReadyState (rs : ReadyState) (s : Socket) : Socket :=
  mkSocket rs (reconnects_on_close s).

Inductive Event : Type :=
| Opened (i : nat)       (* the connection of socket [i] is established *)
| CloseEvent (i : nat)   (* the ["close"] event of socket [i] is dispatched *)
| Unmounted.

Definition step (st : State) (ev : Event) : State :=
  match ev with
  | Opened i =>
      match sockets st !! i with
      | Some (mkSocket CONNECTING _) =>
          mkState (mounted st) (alter (setReadyState OPEN) i (sockets st))
            (ws st)
      | _ => st
      end
  | CloseEvent i =>
      match sockets st !! i with
      | Some (mkSocket CLOSED _) | None => st
      | Some s =>
          let st1 := mkState (mounted st)
                       (alter (setReadyState CLOSED) i (sockets st))
                       (ws st) in
          if reconnects_on_close s then triggerReconnect i st1 else st1
      end
  | Unmounted =>
      if mounted st
      then mkState false (alter close (ws st) (sockets st)) (ws st)
      else st
  end.

Definition exec (st : State) (evs : list Event) : State := foldl step st evs.

(** Connections that are being opened or are open. *)
Definition live (s : Socket) : bool :=
  match readyState s with
  | CONNECTING | OPEN => true
  | _ => false
  end.

(** The states the effect can be in. *)
Inductive reachable : State → Prop :=
| reachable_init : reachable init
| reachable_step st ev : reachable st → reachable (step st ev).

(** The socket in [ws] exists; every other socket is closed, or (after
    unmounting) has no ["close"] listener; and while the component is
    mounted the socket in [ws] has the listener. *)
Definition consistent (st : State) : Prop :=
  ws st < length (sockets st) ∧
  (∀ i s, sockets st !! i = Some s → i ≠ ws st →
     readyState s = CLOSED ∨
     (mounted st = false ∧ reconnects_on_close s = false)) ∧
  (mounted st = true →
     ∃ s, sockets st !! ws st = Some s ∧ reconnects_on_close s = true).

(** Will the ["close"] event of the socket in [ws] still construct a
    socket? *)
Definition armed (st : State) : bool :=
  match sockets st !! ws st with
  | Some (mkSocket CLOSED _) | None => false
  | Some s => reconnects_on_close s
  end.

(** The connection in [ws] drops. *)
Definition drop (st : State) : State := step st (CloseEvent (ws st)).

End PushChannel.

(* ===================================================================== *)
(** ** The submit form *)
(* ===================================================================== *)

Module SubmitForm.

Import Assignment.

(** The outcome of evaluating an expression: a value, or a thrown
    [TypeError]. *)
Inductive completion (A : Type) : Type :=
| Normal (a : A)
| TypeError.
Arguments Normal {A} a.
Arguments TypeError {A}.

Section Form.
Context {Submission : Type}.

(** [ICourse], as far as the form reads it: [course.instructors.length]. *)
Record Course : Type := mkCourse { instructors : nat }.

(** What the form reads from [useAssignment()]. *)
Record Context_ : Type := mkContext {
  assignment : undefinable (option (Assignment Submission));
  course : undefinable Course;
  path : option string
}.

Inductive Effect : Type :=
| SetSummaryText (s : string)
| SetDescriptionText (s : string)
| SetSubmitting (b : bool)
| ApiSubmitAssignment (path summary description : string)
| SnackbarOpen (type message : string)
| ConsoleLog (s : string).

Record State : Type := mkState {
  summaryText : string;
  descriptionText : string;
  submitting : bool;
  (* what the component did, newest first *)
  effects : list Effect
}.

(** [!assignment?.isAvailable] *)
Definition not_available (a : undefinable (option (Assignment Submission))) : bool :=
  match a with
  | Defined (Some a) => negb (isAvailable a)
  | _ => true
  end.

(** [assignment?.isClosed], as a condition. *)
Definition closed (a : undefinable (option (Assignment Submission))) : bool :=
  match a with
  | Defined (Some a) => isClosed a
  | _ => false
  end.

Definition disabled (ctx : Context_) (st : State) : bool :=
  submitting st || String.eqb (summaryText st) "" ||
  not_available (assignment ctx) || closed (assignment ctx).

Definition past_due (c : Course) : string :=
  "Past due. Please contact your instructor" +:+
  (if (1 <? instructors c)%nat then "s" else "") +:+
  " if you need an extension".

Definition disabledReason (ctx : Context_) (st : State)
  : completion (undefinable string) :=
  if disabled ctx st then
    match assignment ctx with
    | Defined (Some a) =>
        if submitting st then Normal (Defined "Currently uploading submission")
        else if negb (isAvailable a) then
          Normal (Defined "Assignment is not available for you to work on yet")
        else if isClosed a then
          match course ctx with
          | Defined c => Normal (Defined (past_due c))
          | Undefined => TypeError
          end
        else if String.eqb (summaryText st) "" then
          Normal (Defined "Please enter a summary for the submission")
        else Normal Undefined
    | _ => Normal Undefined
    end
  else Normal Undefined.

Definition perform (e : Effect) (st : State) : State :=
  match e with
  | SetSummaryText s =>
      mkState s (descriptionText st) (submitting st) (e :: effects st)
  | SetDescriptionText s =>
      mkState (summaryText st) s (submitting st) (e :: effects st)
  | SetSubmitting b =>
      mkState (summaryText st) (descriptionText st) b (e :: effects st)
  | _ =>
      mkState (summaryText st) (descriptionText st) (submitting st)
        (e :: effects st)
  end.

(** [submitAssignment], with [ok] telling whether the promise of
    [apiSubmitAssignment] is fulfilled.  [!path] holds of [null] and of the
    empty string. *)
Definition submitAssignment (ok : bool) (ctx : Context_) (st : State) : State :=
  match path ctx with
  | Some p =>
      if String.eqb p "" then perform (ConsoleLog "Unknown cwd, can't submit") st
      else
        let st1 := perform (SetSubmitting true) st in
        let st2 :=
          perform (ApiSubmitAssignment p (summaryText st) (descriptionText st)) st1 in
        let st3 :=
          if ok then
            perform (SnackbarOpen "success" "Successfully submitted assignment!")
              (perform (SetDescriptionText "") (perform (SetSummaryText "") st2))
          else
            perform (SnackbarOpen "error" "Failed to submit assignment!") st2 in
        perform (SetSubmitting false) st3
  | None => perform (ConsoleLog "Unknown cwd, can't submit") st
  end.

(** The [onKeyDown] handler of the summary input, for [e.key = key]. *)
Definition onKeyDown (key : string) (ok : bool) (ctx : Context_) (st : State)
  : State :=
  if disabled ctx st then st
  else if String.eqb key "Enter" then submitAssignment ok ctx st
  else st.

(** The summary and the description were cleared. *)
Definition cleared (before after : State) : Prop :=
  ∃ done,
    effects after = done ++ effects before ∧
    SetSummaryText "" ∈ done ∧ SetDescriptionText "" ∈ done.

End Form.

Arguments Context_ : clear implicits.

End SubmitForm.

(* ===================================================================== *)
(** ** The instructor's assignment-info panel: date fields *)
(* ===================================================================== *)

Module AssignmentInfo.

(** The [wait] argument of both [useDebouncedCallback] calls. *)
Definition wait : Z := 1000.

Section Debounce.
Context {A : Type}.

(** Modelled from the spec: [useDebouncedCallback(func, 1000, { leading:
    true })] is the hook of the [use-debounce] package, whose code is not
    among the sources.  Section 4.6: "leading-edge: the first edit in a burst
    fires immediately, subsequent edits within the window are coalesced into
    one trailing write reflecting the latest value"; section 9 asks for an
    explicit state machine driven by an injectable clock.  The state keeps
    the time of the last call, the arguments waiting for the trailing edge
    and whether the timer is pending: [Idle] is no timer, [Cooldown] a timer
    with nothing waiting, [PendingFire] a timer with arguments waiting. *)
Record Debounced : Type := mkDebounced {
  lastCallTime : option Z;
  lastArgs : option A;
  timerPending : bool
}.

Definition idle : Debounced := mkDebounced None None false.

(** Modelled from the spec: has the debounce window since the last call
    passed at time [now]?  (A first call, and a clock that went back, count
    as passed.) *)
Definition shouldInvoke (now : Z) (d : Debounced) : bool :=
  match lastCallTime d with
  | None => true
  | Some t => (wait <=? now - t)%Z || (now - t <? 0)%Z
  end.

(** Modelled from the spec: a call at time [now], for the option
    [{ leading }].  "The first edit in a burst fires immediately": with
    [leading], no timer pending and the window passed, [func] is invoked at
    once with [x]; otherwise [x] replaces what is waiting.  Either way the
    timer is pending afterwards. *)
Definition call (leading : bool) (now : Z) (x : A) (d : Debounced)
  : Debounced * list A :=
  if shouldInvoke now d && negb (timerPending d) && leading
  then (mkDebounced (Some now) None true, [x])
  else (mkDebounced (Some now) (Some x) true, []).

(** Modelled from the spec: the timer fires at time [now].  Before the
    window has passed it is set again; after, "subsequent edits within the
    window are coalesced into one trailing write reflecting the latest
    value": the waiting arguments, if any, are delivered. *)
Definition timerExpired (now : Z) (d : Debounced) : Debounced * list A :=
  if negb (timerPending d) then (d, [])
  else if shouldInvoke now d then
    (mkDebounced (lastCallTime d) None false,
     match lastArgs d with Some x => [x] | None => [] end)
  else (d, []).

(** No burst is in progress at time [now]. *)
Definition quiet (now : Z) (d : Debounced) : Prop :=
  timerPending d = false ∧ shouldInvoke now d = true.

End Debounce.

Arguments Debounced : clear implicits.

Section Panel.
(** [new Date(string)] and [addLocalTimezone] from [../../../utils]. *)
Context (Date_parse : string → option Z).
Context (addLocalTimezone : string → string).

(** The instructor-side assignment, as far as the panel's date fields read
    it. *)
Record AssignmentView : Type := mkView {
  name : string;
  availableDate : option Date;
  dueDate : option Date
}.

Inductive Field : Type := available_date | due_date.

(** [updateAssignment(assignment.name, { <field>: <value> })] *)
Record UpdateRequest : Type := mkRequest {
  assignmentName : string;
  field : Field;
  value : option string
}.

Record State : Type := mkState {
  availableDateControlled : string;
  dueDateControlled : string;
  onAvailableDateChanged : Debounced string;
  onDueDateChanged : Debounced string;
  (* the PATCH requests sent, oldest first *)
  requests : list UpdateRequest
}.

(** The body of a debounced callback, for [e.target.value = v]. *)
Definition update (a : AssignmentView) (f : Field) (v : string) : UpdateRequest :=
  mkRequest (name a) f
    (if negb (String.eqb v "") then Some (addLocalTimezone v) else None).

(** [assignment.dueDate && newAvailableDate >= assignment.dueDate] *)
Definition available_rejected (a : AssignmentView) (v : string) : bool :=
  match dueDate a with
  | Some due => num_ge (Date_parse v) (getTime due)
  | None => false
  end.

(** [assignment.availableDate && newDueDate <= assignment.availableDate] *)
Definition due_rejected (a : AssignmentView) (v : string) : bool :=
  match availableDate a with
  | Some available => num_le (Date_parse v) (getTime available)
  | None => false
  end.

(** Both callbacks are created with [{ leading: true }]. *)
Definition leading : bool := true.

(** The [onChange] handler of the available-date field. *)
Definition onAvailableChange (a : AssignmentView) (now : Z) (v : string)
    (st : State) : State :=
  if available_rejected a v then st
  else
    let '(d, fired) := call leading now v (onAvailableDateChanged st) in
    mkState v (dueDateControlled st) d (onDueDateChanged st)
      (requests st ++ (update a available_date <$> fired)).

(** The [onChange] handler of the due-date field. *)
Definition onDueChange (a : AssignmentView) (now : Z) (v : string)
    (st : State) : State :=
  if due_rejected a v then st
  else
    let '(d, fired) := call leading now v (onDueDateChanged st) in
    mkState (availableDateControlled st) v (onAvailableDateChanged st) d
      (requests st ++ (update a due_date <$> fired)).

Definition availableTimer (a : AssignmentView) (now : Z) (st : State) : State :=
  let '(d, fired) := timerExpired now (onAvailableDateChanged st) in
  mkState (availableDateControlled st) (dueDateControlled st) d
    (onDueDateChanged st)
    (requests st ++ (update a available_date <$> fired)).

Definition dueTimer (a : AssignmentView) (now : Z) (st : State) : State :=
  let '(d, fired) := timerExpired now (onDueDateChanged st) in
  mkState (availableDateControlled st) (dueDateControlled st)
    (onAvailableDateChanged st) d
    (requests st ++ (update a due_date <$> fired)).

Inductive Event : Type :=
| Edit (f : Field) (now : Z) (v : string)
| TimerExpired (f : Field) (now : Z).

Definition step (a : AssignmentView) (st : State) (ev : Event) : State :=
  match ev with
  | Edit available_date now v => onAvailableChange a now v st
  | Edit due_date now v => onDueChange a now v st
  | TimerExpired available_date now => availableTimer a now st
  | TimerExpired due_date now => dueTimer a now st
  end.

Definition exec (a : AssignmentView) (st : State) (evs : list Event) : State :=
  foldl (step a) st evs.

(** The validation and the debounced callback of a field. *)
Definition rejected (a : AssignmentView) (f : Field) (v : string) : bool :=
  match f with
  | available_date => available_rejected a v
  | due_date => due_rejected a v
  end.

Definition debounced (f : Field) (st : State) : Debounced string :=
  match f with
  | available_date => onAvailableDateChanged st
  | due_date => onDueDateChanged st
  end.

(** The other date field. *)
Definition other (f : Field) : Field :=
  match f with
  | available_date => due_date
  | due_date => available_date
  end.

Definition controlled (f : Field) (st : State) : string :=
  match f with
  | available_date => availableDateControlled st
  | due_date => dueDateControlled st
  end.

Definition Field_eqb (f g : Field) : bool :=
  match f, g with
  | available_date, available_date | due_date, due_date => true
  | _, _ => false
  end.

(** The value an event puts into the controlled state of field [f], if
    any: an edit of [f] that the handler does not reject. *)
Definition accepted_value (a : AssignmentView) (f : Field) (ev : Event)
  : option string :=
  match ev with
  | Edit g _ v => if Field_eqb g f && negb (rejected a g v) then Some v else None
  | TimerExpired _ _ => None
  end.

(** The value of the last accepted edit of [f] among [evs], or [start]. *)
Definition last_accepted (a : AssignmentView) (f : Field) (evs : list Event)
    (start : string) : string :=
  foldl (λ cur ev, default cur (accepted_value a f ev)) start evs.

End Panel.

End AssignmentInfo.

(* ===================================================================== *)
(** ** The assignment content *)
(* ===================================================================== *)

Module AssignmentContent.

(** What [AssignmentContent] renders inside its container. *)
Inductive View : Type :=
| Spinner                                     (* [loading] *)
| NoAssignmentWarning (noRepository : bool)
| AssignmentPanel.  (* info, tabs and [<AssignmentSubmitForm />] *)

(** [x === null] *)
Definition is_null {A : Type} (x : undefinable (option A)) : bool :=
  match x with
  | Defined None => true
  | _ => false
  end.

Definition render {IAssignment ICurrentAssignment : Type} (loading : bool)
    (assignments : undefinable (option (list IAssignment)))
    (assignment : undefinable (option ICurrentAssignment)) : View :=
  if loading then Spinner
  else if is_null assignments || is_null assignment
  then NoAssignmentWarning (is_null assignments)
  else AssignmentPanel.

(** What the content renders for a provider state and the two slots of
    the course domain. *)
Definition shown {IAssignment ICurrentAssignment IStudent ICourse : Type}
    (st : AssignmentProvider.State IAssignment ICurrentAssignment)
    (student : undefinable IStudent) (course : undefinable ICourse) : View :=
  render
    (AssignmentProvider.loading (AssignmentProvider.currentAssignment st)
       (AssignmentProvider.assignments st) student course)
    (AssignmentProvider.assignments st) (AssignmentProvider.currentAssignment st).

End AssignmentContent.

(* ===================================================================== *)
(** ** [src/api/api.ts] *)
(* ===================================================================== *)

Module Api.

(** What [requestAPI] throws: a [ServerConnection.ResponseError] with the
    status of its response and a message, or anything else. *)
Inductive RequestError : Type :=
| ResponseError (status : Z) (message : string)
| OtherError (e : string).

Definition unavailable_message : string :=
  "EduHeLx Submission server extension is unavailable. Please ensure you have installed the " +:+
  "JupyterLab EduHeLx Submission server extension by running: pip install --upgrade jupyterlab_eduhelx_submission. " +:+
  "To confirm that the server extension is installed, run: jupyter server extension list.".

Section Requests.
Context {Submission SubmissionResponse : Type}.
Context (Submission_fromResponse : SubmissionResponse → Submission).
Context (Date_parse : string → option Z).
(** [ServerSettings.fromResponse] from [./server-settings]. *)
Context {ServerSettingsResponse IServerSettings : Type}.
Context (ServerSettings_fromResponse : ServerSettingsResponse → IServerSettings).

(** The body of [GET /assignments?path=...]. *)
Record AssignmentsBody : Type := mkBody {
  assignments : option (list (Assignment.AssignmentResponse SubmissionResponse));
  current_assignment : option (Assignment.AssignmentResponse SubmissionResponse)
}.

(** [getAssignments(path)], given how [requestAPI] settles: an array and
    an object are truthy, so only [null] maps to [null]. *)
Definition getAssignments (res : AssignmentsBody + RequestError)
  : AssignmentProvider.GetAssignmentsResponse
      (Assignment.Assignment Submission) (Assignment.Assignment Submission)
    + RequestError :=
  match res with
  | inl body =>
      inl (AssignmentProvider.mkResponse
             (fmap (M:=list)
                (Assignment.fromResponse Submission_fromResponse Date_parse)
                <$> assignments body)
             (Assignment.fromResponse Submission_fromResponse Date_parse
                <$> current_assignment body))
  | inr e => inr e
  end.

(** [getServerSettings()], given how [requestAPI] settles: the value
    returned or the error thrown, and the [console.error] calls. *)
Definition getServerSettings (res : ServerSettingsResponse + RequestError)
  : (IServerSettings + RequestError) * list (string * string) :=
  match res with
  | inl data => (inl (ServerSettings_fromResponse data), [])
  | inr (ResponseError status message) =>
      if (status =? 404)%Z
      then (inr (ResponseError status unavailable_message), [])
      else (inr (ResponseError status message),
            [("Failed to get the server extension settings", message)])
  | inr (OtherError e) => (inr (OtherError e), [])
  end.

End Requests.

Arguments AssignmentsBody : clear implicits.

End Api.

(* ===================================================================== *)
(** ** Sample data for the examples *)
(* ===================================================================== *)

Module Samples.

(** Values of [Date.parse] in a browser whose time zone is UTC. *)
Definition sample_dates : list (string * Z) :=
  [ ("2024-01-01T00:00:00Z", 1704067200000%Z);
    ("2024-01-02T00:00:00Z", 1704153600000%Z);
    ("2024-01-03T00:00:00Z", 1704240000000%Z);
    ("2024-01-01T00:00", 1704067200000%Z);
    ("2024-01-02T00:00", 1704153600000%Z);
    ("2024-01-03T00:00", 1704240000000%Z);
    ("2024-01-04T00:00", 1704326400000%Z) ].

Fixpoint lookup_date (s : string) (table : list (string * Z)) : option Z :=
  match table with
  | [] => None
  | (k, v) :: table' => if String.eqb k s then Some v else lookup_date s table'
  end.

Definition sample_parse (s : string) : option Z := lookup_date s sample_dates.

(** A submission: an id and its time. *)
Record Submission : Type := mkSubmission {
  sub_id : nat;
  submissionTime : Date
}.

Definition first_submission : Submission :=
  mkSubmission 1 (mkDate (Some 1704067200000%Z)).
Definition second_submission : Submission :=
  mkSubmission 2 (mkDate (Some 1704153600000%Z)).

(** An assignment whose server flags say closed but not available. *)
Definition closed_not_available : Assignment.AssignmentResponse Submission :=
  Assignment.mkAssignmentResponse 7 "hw1" "hw1" "/home/student/class/hw1"
    "2024-01-01T00:00:00Z"
    (Some "2024-01-02T00:00:00Z") (Some "2024-01-03T00:00:00Z")
    "2024-01-01T00:00:00Z"
    false false true false true Undefined.

(** A current assignment with two submissions, oldest first. *)
Definition two_submissions : Assignment.Assignment Submission :=
  Assignment.mkAssignment 7 "hw1" "hw1" "/home/student/class/hw1"
    (mkDate (Some 1704067200000%Z))
    (Some (mkDate (Some 1704067200000%Z)))
    (Some (mkDate (Some 1704240000000%Z)))
    (mkDate (Some 1704067200000%Z))
    false false true true false
    (Defined [first_submission; second_submission]).

(** The same assignment once its due date has passed. *)
Definition past_due_assignment : Assignment.Assignment Submission :=
  Assignment.mkAssignment 7 "hw1" "hw1" "/home/student/class/hw1"
    (mkDate (Some 1704067200000%Z))
    (Some (mkDate (Some 1704067200000%Z)))
    (Some (mkDate (Some 1704240000000%Z)))
    (mkDate (Some 1704067200000%Z))
    false false true true true
    (Defined [first_submission; second_submission]).

(** The form while a submission is uploading, and at rest with a summary
    typed in. *)
Definition uploading : SubmitForm.State :=
  SubmitForm.mkState "final version" "" true [].

Definition typed : SubmitForm.State :=
  SubmitForm.mkState "final version" "fixed question 2" false [].

Definition form_context : SubmitForm.Context_ Submission :=
  SubmitForm.mkContext (Defined (Some past_due_assignment))
    (Defined (SubmitForm.mkCourse 2)) (Some "class/hw1").

(** The instructor's view of an assignment open from 1 to 3 January, and
    the panel showing it. *)
Definition view : AssignmentInfo.AssignmentView :=
  AssignmentInfo.mkView "hw1"
    (Some (mkDate (Some 1704067200000%Z)))
    (Some (mkDate (Some 1704240000000%Z))).

Definition unreleased : AssignmentInfo.AssignmentView :=
  AssignmentInfo.mkView "hw2" None None.

Definition panel : AssignmentInfo.State :=
  AssignmentInfo.mkState "" "" AssignmentInfo.idle AssignmentInfo.idle [].

(** [addLocalTimezone] in a browser whose time zone is UTC. *)
Definition addLocalTimezone (s : string) : string := s +:+ "+00:00".

(** Two snapshots, as [getAssignments] returns them for two paths. *)
Definition snapshot_A
  : AssignmentProvider.GetAssignmentsResponse
      (Assignment.Assignment Submission) (Assignment.Assignment Submission) :=
  AssignmentProvider.mkResponse (Some [two_submissions]) (Some two_submissions).

Definition snapshot_B
  : AssignmentProvider.GetAssignmentsResponse
      (Assignment.Assignment Submission) (Assignment.Assignment Submission) :=
  AssignmentProvider.mkResponse (Some [two_submissions]) None.

End Samples.

(* ===================================================================== *)
(** ** Facts about [Array.prototype.sort] *)
(* ===================================================================== *)

Section ArraySortFacts.
Context {A : Type} (comparefn : A → A → option Z).

Lemma sort_insert_perm (x : A) (l : list A) :
  sort_insert comparefn x l ≡ₚ x :: l.
Proof.
  induction l as [|y l IH]; simpl; [done|].
  destruct (sorts_after comparefn x y); [|done].
  rewrite IH. apply Permutation_swap.
Qed.

Lemma Array_sort_perm (l : list A) : Array_sort comparefn l ≡ₚ l.
Proof.
  induction l as [|x l IH]; simpl; [done|].
  rewrite sort_insert_perm. by rewrite IH.
Qed.

Lemma Array_sort_length (l : list A) :
  length (Array_sort comparefn l) = length l.
Proof. by rewrite Array_sort_perm. Qed.

Lemma Array_sort_cons_inv (x : A) (l : list A) :
  ∃ s rest, Array_sort comparefn (x :: l) = s :: rest.
Proof.
  pose proof (Array_sort_length (x :: l)) as Hlen.
  destruct (Array_sort comparefn (x :: l)) as [|s rest]; [done|eauto].
Qed.

End ArraySortFacts.

(* ===================================================================== *)
(** ** Facts about the [Assignment] entity *)
(* ===================================================================== *)

Section AssignmentFacts.
Import Assignment.
Context {Submission SubmissionResponse : Type}.
Context (submissionTime : Submission → Date).
Context (Submission_fromResponse : SubmissionResponse → Submission).
Context (Date_parse : string → option Z).

#[local] Abbreviation Assignment := (Assignment Submission).
#[local] Abbreviation fromResponse := (fromResponse Submission_fromResponse Date_parse).
#[local] Abbreviation activeSubmission := (activeSubmission submissionTime).
#[local] Abbreviation after_read := (after_read submissionTime).
#[local] Abbreviation time_is := (time_is submissionTime).
#[local] Abbreviation valid_time := (valid_time submissionTime).

Lemma truthy_fmap_ne_None (s : option string) :
  (if truthy s then new_Date Date_parse <$> s else None) ≠ None ↔ truthy s = true.
Proof.
  destruct s as [s|]; simpl; [|naive_solver].
  destruct (negb (String.eqb s "")); naive_solver.
Qed.

Lemma fromResponse_available_set (data : AssignmentResponse SubmissionResponse) :
  adjustedAvailableDate (fromResponse data) ≠ None ↔
  truthy (adjusted_available_date data) = true.
Proof. apply truthy_fmap_ne_None. Qed.

Lemma fromResponse_due_set (data : AssignmentResponse SubmissionResponse) :
  adjustedDueDate (fromResponse data) ≠ None ↔
  truthy (adjusted_due_date data) = true.
Proof. apply truthy_fmap_ne_None. Qed.

(** C1 (as amended): [fromResponse] derives no facet.  [isCreated],
    [isAvailable] and [isClosed] are the response's [is_created],
    [is_available] and [is_closed]; an adjusted date is non-null exactly
    when the response carries a non-empty date string; so the facet
    invariant holds of the assignment exactly when it holds of the
    response. *)
Theorem fromResponse_facets_from_server
    (data : AssignmentResponse SubmissionResponse) :
  isCreated (fromResponse data) = is_created data ∧
  isAvailable (fromResponse data) = is_available data ∧
  isClosed (fromResponse data) = is_closed data ∧
  (adjustedAvailableDate (fromResponse data) ≠ None ↔
     truthy (adjusted_available_date data) = true) ∧
  (adjustedDueDate (fromResponse data) ≠ None ↔
     truthy (adjusted_due_date data) = true) ∧
  (facets_consistent (fromResponse data) ↔ response_consistent data).
Proof.
  pose proof (fromResponse_available_set data) as Ha.
  pose proof (fromResponse_due_set data) as Hd.
  split_and!; try done.
  unfold facets_consistent, response_consistent.
  rewrite Ha, Hd. done.
Qed.

(** The head of the sorted array is a latest submission. *)
Lemma Array_sort_head_latest (l : list Submission) :
  Forall valid_time l → l ≠ [] →
  ∃ s t rest,
    Array_sort (by_time_desc submissionTime) l = s :: rest ∧
    s ∈ l ∧ time_is s t ∧
    ∀ s' t', s' ∈ l → time_is s' t' → (t' ≤ t)%Z.
Proof.
  induction l as [|x l IH]; [done|].
  intros Hvalid _. apply Forall_cons_1 in Hvalid as [[tx Hx] Hvalid].
  destruct l as [|y l].
  { exists x, tx, []. repeat split; [apply list_elem_of_here|done|].
    intros s' t' Hin Ht'. apply list_elem_of_singleton in Hin as ->.
    unfold Assignment.time_is in *. assert (t' = tx) by congruence. lia. }
  destruct (IH Hvalid) as (s & t & rest & Hsort & Hin & Ht & Hmax); [done|].
  change (Array_sort (by_time_desc submissionTime) (x :: y :: l))
    with (sort_insert (by_time_desc submissionTime) x
            (Array_sort (by_time_desc submissionTime) (y :: l))).
  rewrite Hsort. simpl.
  unfold sorts_after, by_time_desc. rewrite Ht, Hx. simpl.
  destruct (Z.ltb_spec 0 (t - tx)) as [Hlt|Hge].
  - exists s, t, (sort_insert (by_time_desc submissionTime) x rest).
    repeat split; [by apply list_elem_of_further|done|].
    intros s' t' Hin' Ht'. apply elem_of_cons in Hin' as [->|Hin'].
    + unfold Assignment.time_is in *. assert (t' = tx) by congruence. lia.
    + eauto.
  - exists x, tx, (s :: rest). repeat split; [apply list_elem_of_here|done|].
    intros s' t' Hin' Ht'. apply elem_of_cons in Hin' as [->|Hin'].
    + unfold Assignment.time_is in *. assert (t' = tx) by congruence. lia.
    + specialize (Hmax s' t' Hin' Ht'). lia.
Qed.

(** C5: [activeSubmission] is [undefined] when the submissions are unknown,
    [null] when there are none, and otherwise a submission of the list whose
    submission time is the greatest. *)
Theorem activeSubmission_latest (a : Assignment) :
  (get_submissions a = Undefined → (activeSubmission a).1 = Undefined) ∧
  (get_submissions a = Defined [] → (activeSubmission a).1 = Defined None) ∧
  (∀ l, get_submissions a = Defined l → l ≠ [] → Forall valid_time l →
     ∃ s t, (activeSubmission a).1 = Defined (Some s) ∧
            s ∈ l ∧ time_is s t ∧
            ∀ s' t', s' ∈ l → time_is s' t' → (t' ≤ t)%Z).
Proof.
  unfold get_submissions, activeSubmission. repeat split.
  - by intros ->.
  - by intros ->.
  - intros l -> Hne Hvalid.
    destruct (Array_sort_head_latest l Hvalid Hne)
      as (s & t & rest & Hsort & Hin & Ht & Hmax).
    exists s, t. destruct l as [|x l]; [done|].
    cbv zeta. rewrite Hsort. simpl. eauto.
Qed.

(** Reading any property but [activeSubmission] leaves the object as it
    was. *)
Lemma after_read_plain (p : Property) (a : Assignment) :
  p ≠ P_activeSubmission → after_read p a = a.
Proof. by destruct p. Qed.

(** X1: reading [activeSubmission] keeps every field but the submissions, which
    keep their elements. *)
Lemma activeSubmission_frame (a : Assignment) :
  let a' := (activeSubmission a).2 in
  _id a' = _id a ∧ _name a' = _name a ∧
  _directoryPath a' = _directoryPath a ∧
  _absoluteDirectoryPath a' = _absoluteDirectoryPath a ∧
  _createdDate a' = _createdDate a ∧
  _adjustedAvailableDate a' = _adjustedAvailableDate a ∧
  _adjustedDueDate a' = _adjustedDueDate a ∧
  _lastModifiedDate a' = _lastModifiedDate a ∧
  _isDeferred a' = _isDeferred a ∧ _isExtended a' = _isExtended a ∧
  _isCreated a' = _isCreated a ∧ _isAvailable a' = _isAvailable a ∧
  _isClosed a' = _isClosed a ∧
  match _submissions a, _submissions a' with
  | Defined l, Defined l' => l' ≡ₚ l
  | Undefined, Undefined => True
  | _, _ => False
  end.
Proof.
  unfold activeSubmission.
  destruct a as [? ? ? ? ? ? ? ? ? ? ? ? ? [|[|x l]]]; simpl; repeat split; try done.
  apply (Array_sort_perm _ (x :: l)).
Qed.

End AssignmentFacts.

(** C1 (counterexample): a response with ordered dates
    ([due >= available]) whose flags say closed and not available yields an
    assignment that is closed and not available. *)
Lemma fromResponse_facets_not_derived :
  let a := Assignment.fromResponse (λ s : Samples.Submission, s)
             Samples.sample_parse Samples.closed_not_available in
  Assignment.due_ge_available a = true ∧
  Assignment.isClosed a = true ∧
  Assignment.isAvailable a = false ∧
  ¬ Assignment.facets_consistent a.
Proof.
  repeat split; try reflexivity.
  intros [Hclosed _]. specialize (Hclosed eq_refl). discriminate.
Qed.

(** C5 (witness): of two submissions the later one is active. *)
Lemma activeSubmission_latest_witness :
  ∃ s t,
    (Assignment.activeSubmission Samples.submissionTime
       Samples.two_submissions).1 = Defined (Some s) ∧
    s ∈ [Samples.first_submission; Samples.second_submission] ∧
    Assignment.time_is Samples.submissionTime s t ∧
    ∀ s' t', s' ∈ [Samples.first_submission; Samples.second_submission] →
             Assignment.time_is Samples.submissionTime s' t' → (t' ≤ t)%Z.
Proof.
  apply (activeSubmission_latest Samples.submissionTime Samples.two_submissions).
  - reflexivity.
  - discriminate.
  - repeat constructor; eexists; reflexivity.
Defined.

(** C9 (the code at the failing input): reading [activeSubmission] of an
    assignment whose submissions are stored oldest first leaves them stored
    newest first. *)
Lemma activeSubmission_reorders_submissions :
  Assignment.get_submissions Samples.two_submissions
    = Defined [Samples.first_submission; Samples.second_submission] ∧
  Assignment.get_submissions
    (Assignment.after_read Samples.submissionTime Assignment.P_activeSubmission
       Samples.two_submissions)
    = Defined [Samples.second_submission; Samples.first_submission].
Proof. split; reflexivity. Qed.

(* ===================================================================== *)
(** ** Facts about the poll loop *)
(* ===================================================================== *)

Section PollFacts.
Import AssignmentProvider.
Context {IAssignment ICurrentAssignment : Type}.

#[local] Abbreviation State := (State IAssignment ICurrentAssignment).
#[local] Abbreviation Response := (GetAssignmentsResponse IAssignment ICurrentAssignment).
#[local] Abbreviation Result := (FetchResult IAssignment ICurrentAssignment).
#[local] Abbreviation Event := (Event IAssignment ICurrentAssignment).

Lemma resume_slots_cancelled (st : State) i r value :
  cancelled r = true →
  assignments (resume i r value st) = assignments st ∧
  currentAssignment (resume i r value st) = currentAssignment st ∧
  currentPath (resume i r value st) = currentPath st ∧
  runs (resume i r value st) = <[i:=mkRun (run_path r) true Stopped]> (runs st).
Proof. unfold resume. intros ->. done. Qed.

Lemma resume_runs (st : State) i r value :
  runs (resume i r value st)
  = <[i:=mkRun (run_path r) (cancelled r)
           (if cancelled r then Stopped else Waiting)]> (runs st).
Proof. unfold resume. destruct (cancelled r), value; done. Qed.

Lemma timerFired_runs (st : State) i :
  runs (timerFired i st) = runs st ∨
  ∃ r s, runs st !! i = Some r ∧
         runs (timerFired i st) = <[i:=mkRun (run_path r) (cancelled r) s]> (runs st).
Proof.
  unfold timerFired. destruct (runs st !! i) as [r|] eqn:Hr; [|by left].
  destruct (status r); try by left.
  destruct (run_path r) eqn:Hp; right; exists r; eexists; (split; [done|]).
  - rewrite <-Hp. done.
  - by rewrite resume_runs.
Qed.

Lemma fetchSettled_runs (st : State) i res :
  runs (fetchSettled i res st) = runs st ∨
  ∃ r s, runs st !! i = Some r ∧
         runs (fetchSettled i res st) = <[i:=mkRun (run_path r) (cancelled r) s]> (runs st).
Proof.
  unfold fetchSettled. destruct (runs st !! i) as [r|] eqn:Hr; [|by left].
  destruct (status r); try by left.
  right. exists r. eexists. split; [done|].
  destruct res; by rewrite resume_runs.
Qed.

Lemma cleanup_lookup (st : State) i r :
  runs st !! i = Some r →
  runs (cleanup st) !! i
  = Some (if decide (S i = length (runs st)) then cancel r else r).
Proof.
  intros Hr. unfold cleanup.
  destruct (runs st) as [|r0 rs] eqn:Hruns; [done|].
  unfold setRuns. cbn [runs]. rewrite <-Hruns in *.
  pose proof (lookup_lt_Some _ _ _ Hr) as Hlt.
  case_decide as Hlast.
  - replace (pred (length (runs st))) with i by lia.
    by rewrite list_lookup_alter_eq, Hr.
  - by rewrite list_lookup_alter_ne by lia.
Qed.

Lemma cleanup_length (st : State) : length (runs (cleanup st)) = length (runs st).
Proof.
  unfold cleanup. destruct (runs st) eqn:Hruns; [by rewrite Hruns|].
  unfold setRuns. cbn [runs]. by rewrite length_alter.
Qed.

Lemma insert_same_flag (rs : list EffectRun) i r s j r0 :
  rs !! i = Some r → rs !! j = Some r0 →
  ∃ r', <[i:=mkRun (run_path r) (cancelled r) s]> rs !! j = Some r' ∧
        cancelled r' = cancelled r0.
Proof.
  intros Hi Hj. destruct (decide (i = j)) as [->|Hne].
  - rewrite list_lookup_insert_eq by eauto using lookup_lt_Some.
    eexists. split; [done|]. simpl. congruence.
  - rewrite list_lookup_insert_ne by done. eauto.
Qed.

Lemma step_keeps_cancelled (st : State) (ev : Event) :
  keeps_cancelled st (step st ev).
Proof.
  intros j r0 Hj. destruct ev as [p|i|i res|]; simpl.
  - unfold setCurrentPath. destruct (negb (mounted st)); [eauto|].
    case_decide; [eauto|]. unfold runEffect. cbn [runs].
    pose proof (cleanup_lookup st j r0 Hj) as Hc.
    erewrite lookup_app_l_Some by done.
    eexists. split; [done|]. case_decide; simpl; auto.
  - destruct (timerFired_runs st i) as [->|(r & s & Hi & ->)]; [eauto|].
    destruct (insert_same_flag _ _ _ s _ _ Hi Hj) as (r' & -> & Hc).
    eexists. split; [done|]. congruence.
  - destruct (fetchSettled_runs st i res) as [->|(r & s & Hi & ->)]; [eauto|].
    destruct (insert_same_flag _ _ _ s _ _ Hi Hj) as (r' & -> & Hc).
    eexists. split; [done|]. congruence.
  - unfold unmount. cbn [runs]. rewrite (cleanup_lookup st j r0 Hj).
    eexists. split; [done|]. case_decide; simpl; auto.
Qed.

Lemma exec_keeps_cancelled (evs : list Event) (st : State) :
  keeps_cancelled st (exec st evs).
Proof.
  revert st. induction evs as [|ev evs IH]; intros st i r Hr; simpl.
  - eauto.
  - destruct (step_keeps_cancelled st ev i r Hr) as (r1 & Hr1 & Hc1).
    destruct (IH (step st ev) i r1 Hr1) as (r2 & Hr2 & Hc2).
    eauto.
Qed.

(** A change of path cancels every run there was. *)
Lemma setCurrentPath_cancels (st : State) p i r :
  older_runs_cancelled st → mounted st = true → p ≠ currentPath st →
  runs st !! i = Some r →
  ∃ r', runs (setCurrentPath p st) !! i = Some r' ∧ cancelled r' = true.
Proof.
  intros Hinv Hm Hp Hr. unfold setCurrentPath. rewrite Hm. simpl.
  rewrite decide_False by done. unfold runEffect. cbn [runs].
  pose proof (cleanup_lookup st i r Hr) as Hc.
  erewrite lookup_app_l_Some by done.
  eexists. split; [done|]. case_decide as Hlast; [done|].
  apply (Hinv i r Hr). apply lookup_lt_Some in Hr. lia.
Qed.

Lemma older_runs_cancelled_insert (st : State) i r s (st' : State) :
  older_runs_cancelled st → runs st !! i = Some r →
  runs st' = <[i:=mkRun (run_path r) (cancelled r) s]> (runs st) →
  older_runs_cancelled st'.
Proof.
  intros Hinv Hi Hruns j r' Hj Hlen. rewrite Hruns in Hj, Hlen.
  rewrite length_insert in Hlen.
  destruct (decide (i = j)) as [->|Hne].
  - rewrite list_lookup_insert_eq in Hj by eauto using lookup_lt_Some.
    injection Hj as <-. simpl. eauto.
  - rewrite list_lookup_insert_ne in Hj by done. eauto.
Qed.

Lemma older_runs_cancelled_cleanup (st : State) i r :
  older_runs_cancelled st → runs (cleanup st) !! i = Some r →
  cancelled r = true.
Proof.
  intros Hinv Hi.
  assert (is_Some (runs st !! i)) as [r0 Hr0].
  { apply lookup_lt_is_Some. rewrite <-cleanup_length. eauto using lookup_lt_Some. }
  rewrite (cleanup_lookup st i r0 Hr0) in Hi. injection Hi as <-.
  case_decide as Hlast; [done|].
  apply (Hinv i r0 Hr0). apply lookup_lt_Some in Hr0. lia.
Qed.

Lemma step_older_runs_cancelled (st : State) (ev : Event) :
  older_runs_cancelled st → older_runs_cancelled (step st ev).
Proof.
  intros Hinv. destruct ev as [p|i|i res|]; simpl.
  - unfold setCurrentPath. destruct (negb (mounted st)); [done|].
    case_decide; [done|]. unfold runEffect. intros j r Hj Hlen.
    cbn [runs] in *. rewrite length_app in Hlen. simpl in Hlen.
    rewrite lookup_app_l in Hj by lia.
    eauto using older_runs_cancelled_cleanup.
  - destruct (timerFired_runs st i) as [Heq|(r & s & Hi & Heq)].
    + intros j r Hj Hlen. rewrite Heq in *. eauto.
    + eauto using older_runs_cancelled_insert.
  - destruct (fetchSettled_runs st i res) as [Heq|(r & s & Hi & Heq)].
    + intros j r Hj Hlen. rewrite Heq in *. eauto.
    + eauto using older_runs_cancelled_insert.
  - unfold unmount. intros j r Hj _. cbn [runs] in Hj.
    eauto using older_runs_cancelled_cleanup.
Qed.

Lemma reachable_older_runs_cancelled (st : State) :
  reachable st → older_runs_cancelled st.
Proof.
  induction 1 as [|st ev _ IH]; [|by apply step_older_runs_cancelled].
  intros i r Hi Hlen. simpl in *. lia.
Qed.

Lemma reachable_exec (st : State) (evs : list Event) :
  reachable st → reachable (exec st evs).
Proof.
  revert st. induction evs as [|ev evs IH]; intros st Hst; simpl; [done|].
  apply IH. by constructor.
Qed.

(** One attempt of a run that is current and waiting. *)
Lemma attempt_live (st : State) i p (res : Result) :
  runs st !! i = Some (mkRun (Some p) false Waiting) →
  runs (attempt i res st) !! i = Some (mkRun (Some p) false Waiting) ∧
  match res with
  | Fulfilled v =>
      assignments (attempt i res st) = Defined (r_assignments v) ∧
      currentAssignment (attempt i res st) = Defined (r_currentAssignment v) ∧
      snackbar (attempt i res st) = snackbar st
  | Rejected e =>
      assignments (attempt i res st) = Undefined ∧
      currentAssignment (attempt i res st) = Undefined ∧
      snackbar (attempt i res st)
      = mkMessage warning "Failed to pull assignments..." :: snackbar st
  end.
Proof.
  intros Hi. pose proof (lookup_lt_Some _ _ _ Hi) as Hlt.
  unfold attempt, timerFired. rewrite Hi. simpl.
  unfold fetchSettled, setRun, setRuns. cbn [runs].
  rewrite list_lookup_insert_eq by done. simpl.
  destruct res as [v|e]; unfold resume; simpl;
    rewrite list_lookup_insert_eq by (by rewrite length_insert); done.
Qed.

Lemma attempts_live (st : State) i p (errs : list string) :
  runs st !! i = Some (mkRun (Some p) false Waiting) →
  runs (foldl (λ s e, attempt i (Rejected e) s) st errs) !! i
  = Some (mkRun (Some p) false Waiting).
Proof.
  revert st. induction errs as [|e errs IH]; intros st Hi; simpl; [done|].
  apply IH. by apply (attempt_live st i p (Rejected e)).
Qed.

End PollFacts.

Section PollTheorems.
Import AssignmentProvider.
Context {IAssignment ICurrentAssignment : Type}.

#[local] Abbreviation State := (State IAssignment ICurrentAssignment).
#[local] Abbreviation Response := (GetAssignmentsResponse IAssignment ICurrentAssignment).
#[local] Abbreviation Result := (FetchResult IAssignment ICurrentAssignment).
#[local] Abbreviation Event := (Event IAssignment ICurrentAssignment).

(** C2 (as amended): for the current run of the poll effect, a failed fetch
    resets both slots to [undefined], opens a warning and leaves the next
    attempt scheduled; and after any number of failed attempts in a row, a
    successful attempt writes its result into both slots. *)
Theorem poll_failure_resets_and_recovers
    (st : State) (i : nat) (r : EffectRun) (p e : string)
    (errs : list string) (v : Response) :
  runs st !! i = Some r → run_path r = Some p → cancelled r = false →
  (status r = Fetching →
     assignments (fetchSettled i (Rejected e) st) = Undefined ∧
     currentAssignment (fetchSettled i (Rejected e) st) = Undefined ∧
     snackbar (fetchSettled i (Rejected e) st)
     = mkMessage warning "Failed to pull assignments..." :: snackbar st ∧
     runs (fetchSettled i (Rejected e) st) !! i
     = Some (mkRun (Some p) false Waiting)) ∧
  (status r = Waiting →
     assignments
       (attempt i (Fulfilled v) (foldl (λ s e, attempt i (Rejected e) s) st errs))
     = Defined (r_assignments v) ∧
     currentAssignment
       (attempt i (Fulfilled v) (foldl (λ s e, attempt i (Rejected e) s) st errs))
     = Defined (r_currentAssignment v)).
Proof.
  intros Hi Hp Hc. destruct r as [rp rc rs]. simpl in *. subst rp rc. split.
  - intros ->. pose proof (lookup_lt_Some _ _ _ Hi) as Hlt.
    unfold fetchSettled. rewrite Hi. simpl. unfold resume. simpl.
    rewrite list_lookup_insert_eq by done. done.
  - intros ->.
    pose proof (attempts_live st i p errs Hi) as Hlive.
    destruct (attempt_live _ i p (Fulfilled v) Hlive) as (_ & Ha & Hcur & _).
    done.
Qed.

(** C3: once the path has changed, the response of a fetch started by an
    earlier run writes neither slot and schedules nothing, whatever happened
    in between and however the fetch settles. *)
Theorem late_response_discarded
    (st : State) (p : option string) (evs : list Event)
    (i : nat) (r1 : EffectRun) (res : Result) :
  reachable st → mounted st = true → p ≠ currentPath st →
  i < length (runs st) →
  runs (exec (setCurrentPath p st) evs) !! i = Some r1 → status r1 = Fetching →
  assignments (fetchSettled i res (exec (setCurrentPath p st) evs))
  = assignments (exec (setCurrentPath p st) evs) ∧
  currentAssignment (fetchSettled i res (exec (setCurrentPath p st) evs))
  = currentAssignment (exec (setCurrentPath p st) evs) ∧
  currentPath (fetchSettled i res (exec (setCurrentPath p st) evs))
  = currentPath (exec (setCurrentPath p st) evs) ∧
  runs (fetchSettled i res (exec (setCurrentPath p st) evs)) !! i
  = Some (mkRun (run_path r1) true Stopped).
Proof.
  intros Hreach Hm Hp Hi Hr1 Hs.
  apply lookup_lt_is_Some in Hi as [r0 Hr0].
  destruct (setCurrentPath_cancels st p i r0
              (reachable_older_runs_cancelled st Hreach) Hm Hp Hr0)
    as (r' & Hr' & Hc').
  destruct (exec_keeps_cancelled evs _ i r' Hr') as (r'' & Hr'' & Hc'').
  rewrite Hr1 in Hr''. injection Hr'' as <-. specialize (Hc'' Hc').
  pose proof (lookup_lt_Some _ _ _ Hr1) as Hlt.
  unfold fetchSettled. rewrite Hr1, Hs.
  destruct res as [v|e].
  - destruct (resume_slots_cancelled (exec (setCurrentPath p st) evs)
                i r1 (Defined v) Hc'') as (-> & -> & -> & ->).
    by rewrite list_lookup_insert_eq.
  - destruct (resume_slots_cancelled
                (catch_failure e (exec (setCurrentPath p st) evs))
                i r1 Undefined Hc'') as (-> & -> & -> & ->).
    simpl. by rewrite list_lookup_insert_eq.
Qed.

End PollTheorems.

(** C2 (counterexample): with a snapshot stored and the next fetch in
    flight, a rejected fetch leaves both slots [undefined]. *)
Lemma poll_failure_drops_snapshot :
  let st :=
    AssignmentProvider.exec AssignmentProvider.init
      [ AssignmentProvider.PathChanged (Some "hw1");
        AssignmentProvider.TimerFired 1;
        AssignmentProvider.FetchSettled 1
          (AssignmentProvider.Fulfilled Samples.snapshot_A);
        AssignmentProvider.TimerFired 1 ] in
  let st' :=
    AssignmentProvider.step st
      (AssignmentProvider.FetchSettled 1
         (AssignmentProvider.Rejected "Failed to fetch")) in
  AssignmentProvider.assignments st = Defined (Some [Samples.two_submissions]) ∧
  AssignmentProvider.currentAssignment st = Defined (Some Samples.two_submissions) ∧
  AssignmentProvider.assignments st' = Undefined ∧
  AssignmentProvider.currentAssignment st' = Undefined.
Proof. repeat split; reflexivity. Qed.

(** C2 (witness): run 1 polls path ["hw1"]; its fetch fails, fails twice
    more, and then succeeds. *)
Lemma poll_failure_resets_and_recovers_witness :
  let st :=
    AssignmentProvider.exec AssignmentProvider.init
      [ AssignmentProvider.PathChanged (Some "hw1") ] in
  AssignmentProvider.assignments
    (AssignmentProvider.attempt 1 (AssignmentProvider.Fulfilled Samples.snapshot_A)
       (foldl (λ s e, AssignmentProvider.attempt 1 (AssignmentProvider.Rejected e) s)
          st ["502"; "502"; "timeout"]))
  = Defined (Some [Samples.two_submissions]) ∧
  AssignmentProvider.currentAssignment
    (AssignmentProvider.attempt 1 (AssignmentProvider.Fulfilled Samples.snapshot_A)
       (foldl (λ s e, AssignmentProvider.attempt 1 (AssignmentProvider.Rejected e) s)
          st ["502"; "502"; "timeout"]))
  = Defined (Some Samples.two_submissions).
Proof.
  apply (poll_failure_resets_and_recovers
           (AssignmentProvider.exec AssignmentProvider.init
              [AssignmentProvider.PathChanged (Some "hw1")])
           1 (AssignmentProvider.mkRun (Some "hw1") false AssignmentProvider.Waiting)
           "hw1" "" ["502"; "502"; "timeout"] Samples.snapshot_A);
    reflexivity.
Defined.

(** C3 (witness): a fetch starts under ["hw1"], the path changes to
    ["hw2"] and its snapshot arrives, then the fetch for ["hw1"] resolves:
    the slots still hold the snapshot of ["hw2"]. *)
Lemma late_response_discarded_witness :
  let st :=
    AssignmentProvider.exec AssignmentProvider.init
      [ AssignmentProvider.PathChanged (Some "hw1");
        AssignmentProvider.TimerFired 1 ] in
  let st1 :=
    AssignmentProvider.exec (AssignmentProvider.setCurrentPath (Some "hw2") st)
      [ AssignmentProvider.TimerFired 2;
        AssignmentProvider.FetchSettled 2
          (AssignmentProvider.Fulfilled Samples.snapshot_B) ] in
  let st2 :=
    AssignmentProvider.fetchSettled 1
      (AssignmentProvider.Fulfilled Samples.snapshot_A) st1 in
  AssignmentProvider.assignments st2 = AssignmentProvider.assignments st1 ∧
  AssignmentProvider.currentAssignment st2
  = AssignmentProvider.currentAssignment st1 ∧
  AssignmentProvider.currentPath st2 = AssignmentProvider.currentPath st1 ∧
  AssignmentProvider.runs st2 !! 1
  = Some (AssignmentProvider.mkRun (Some "hw1") true AssignmentProvider.Stopped).
Proof.
  apply (late_response_discarded
           (AssignmentProvider.exec AssignmentProvider.init
              [ AssignmentProvider.PathChanged (Some "hw1");
                AssignmentProvider.TimerFired 1 ])
           (Some "hw2")
           [ AssignmentProvider.TimerFired 2;
             AssignmentProvider.FetchSettled 2
               (AssignmentProvider.Fulfilled Samples.snapshot_B) ]
           1 (AssignmentProvider.mkRun (Some "hw1") true AssignmentProvider.Fetching)
           (AssignmentProvider.Fulfilled Samples.snapshot_A)).
  - apply reachable_exec, AssignmentProvider.reachable_init.
  - reflexivity.
  - discriminate.
  - simpl. lia.
  - reflexivity.
  - reflexivity.
Defined.

(* ===================================================================== *)
(** ** Facts about the websocket effect *)
(* ===================================================================== *)

(** A ["close"] event creates at most one socket. *)
Lemma close_event_opens_at_most_one (st : PushChannel.State) (i : nat) :
  length (PushChannel.sockets (PushChannel.step st (PushChannel.CloseEvent i)))
  ≤ S (length (PushChannel.sockets st)).
Proof.
  simpl. destruct (PushChannel.sockets st !! i) as [[[] l]|] eqn:Hi;
    simpl; try lia;
    destruct l; unfold PushChannel.triggerReconnect, PushChannel.setWs,
      PushChannel.runEffect, PushChannel.newWebSocket, PushChannel.closeSocket;
    simpl; try (destruct (PushChannel.mounted st)); simpl;
    rewrite ?length_alter, ?length_app, ?length_alter; simpl; lia.
Qed.

(** C4 (the code at the failing inputs): when the server closes the open
    connection, the new socket is constructed within the dispatch of the
    ["close"] event, not by a later timer; and when the component is
    unmounted, the ["close"] event of the socket it closed constructs a new
    socket all the same. *)
Lemma reconnect_is_immediate_and_survives_unmount :
  PushChannel.sockets
    (PushChannel.exec PushChannel.init
       [PushChannel.Opened 0; PushChannel.CloseEvent 0])
  = [ PushChannel.mkSocket PushChannel.CLOSED true;
      PushChannel.mkSocket PushChannel.CONNECTING true ] ∧
  PushChannel.mounted
    (PushChannel.exec PushChannel.init
       [PushChannel.Opened 0; PushChannel.Unmounted; PushChannel.CloseEvent 0])
  = false ∧
  PushChannel.sockets
    (PushChannel.exec PushChannel.init
       [PushChannel.Opened 0; PushChannel.Unmounted])
  = [ PushChannel.mkSocket PushChannel.CLOSING true ] ∧
  PushChannel.sockets
    (PushChannel.exec PushChannel.init
       [PushChannel.Opened 0; PushChannel.Unmounted; PushChannel.CloseEvent 0])
  = [ PushChannel.mkSocket PushChannel.CLOSED true;
      PushChannel.mkSocket PushChannel.CONNECTING false ] ∧
  PushChannel.live
  <$> PushChannel.sockets
        (PushChannel.exec PushChannel.init
           [PushChannel.Opened 0; PushChannel.Unmounted; PushChannel.CloseEvent 0])
  = [false; true].
Proof. repeat split; reflexivity. Qed.

(* ===================================================================== *)
(** ** Facts about the submit form *)
(* ===================================================================== *)

Section SubmitFormFacts.
Import Assignment SubmitForm.
Context {Submission : Type}.

#[local] Abbreviation Context_ := (Context_ Submission).

Lemma past_due_prefix (c : Course) : String.prefix "Past due" (past_due c) = true.
Proof. reflexivity. Qed.

(** C8 (as amended): a closed assignment disables the submit action.  The
    reason shown is the past-due message when no upload is in progress and
    the assignment is available; during an upload it is the uploading
    message, and for an assignment that is not available the
    not-available message. *)
Theorem closed_assignment_disables_submit
    (ctx : Context_) (st : State) (a : Assignment Submission) (c : Course) :
  assignment ctx = Defined (Some a) → isClosed a = true →
  disabled ctx st = true ∧
  (submitting st = false → isAvailable a = true → course ctx = Defined c →
     disabledReason ctx st = Normal (Defined (past_due c)) ∧
     String.prefix "Past due" (past_due c) = true) ∧
  (submitting st = true →
     disabledReason ctx st = Normal (Defined "Currently uploading submission")) ∧
  (submitting st = false → isAvailable a = false →
     disabledReason ctx st
     = Normal (Defined "Assignment is not available for you to work on yet")).
Proof.
  intros Ha Hclosed.
  assert (disabled ctx st = true) as Hd.
  { unfold disabled. rewrite Ha. simpl. rewrite Hclosed.
    by rewrite !orb_true_r. }
  unfold disabledReason. rewrite Hd, Ha. split_and!; [done|..].
  - intros -> -> ->. simpl. by rewrite Hclosed.
  - by intros ->.
  - by intros -> ->.
Qed.

Lemma submit_effects (ok : bool) (ctx : Context_) (st : State) (p : string) :
  path ctx = Some p → p ≠ "" →
  effects (submitAssignment ok ctx st)
  = (if ok
     then [ SetSubmitting false;
            SnackbarOpen "success" "Successfully submitted assignment!";
            SetDescriptionText ""; SetSummaryText "";
            ApiSubmitAssignment p (summaryText st) (descriptionText st);
            SetSubmitting true ]
     else [ SetSubmitting false;
            SnackbarOpen "error" "Failed to submit assignment!";
            ApiSubmitAssignment p (summaryText st) (descriptionText st);
            SetSubmitting true ]) ++ effects st.
Proof.
  intros Hp Hne. unfold submitAssignment. rewrite Hp.
  apply String.eqb_neq in Hne. rewrite Hne. by destruct ok.
Qed.

(** C10: with a path to submit from, the summary and the description are
    cleared exactly when the request succeeds; when it fails both keep
    their values and the only notification opened is the error. *)
Theorem submit_clears_only_on_success
    (ok : bool) (ctx : Context_) (st : State) (p : string) :
  path ctx = Some p → p ≠ "" →
  (cleared st (submitAssignment ok ctx st) ↔ ok = true) ∧
  (ok = true →
     summaryText (submitAssignment ok ctx st) = "" ∧
     descriptionText (submitAssignment ok ctx st) = "") ∧
  (ok = false →
     summaryText (submitAssignment ok ctx st) = summaryText st ∧
     descriptionText (submitAssignment ok ctx st) = descriptionText st ∧
     effects (submitAssignment ok ctx st)
     = [ SetSubmitting false;
         SnackbarOpen "error" "Failed to submit assignment!";
         ApiSubmitAssignment p (summaryText st) (descriptionText st);
         SetSubmitting true ] ++ effects st).
Proof.
  intros Hp Hne. pose proof (submit_effects ok ctx st p Hp Hne) as Heff.
  split_and!.
  - split.
    + intros (done & Hdone & Hsum & _). destruct ok; [done|].
      rewrite Heff in Hdone. apply app_inv_tail in Hdone. subst done.
      repeat (apply elem_of_cons in Hsum as [Hsum|Hsum]; [discriminate|]).
      by apply elem_of_nil in Hsum.
    + intros ->. eexists. split; [exact Heff|].
      split; repeat first [apply list_elem_of_here | apply list_elem_of_further].
  - intros ->. unfold submitAssignment. rewrite Hp.
    apply String.eqb_neq in Hne. by rewrite Hne.
  - intros ->. split_and!; [| |exact Heff];
      unfold submitAssignment; rewrite Hp;
      apply String.eqb_neq in Hne; by rewrite Hne.
Qed.

End SubmitFormFacts.

(** C8 (counterexample): the assignment is closed and a submission is
    uploading; the reason shown is the uploading message. *)
Lemma closed_assignment_reason_while_uploading :
  Assignment.isClosed Samples.past_due_assignment = true ∧
  SubmitForm.disabled Samples.form_context Samples.uploading = true ∧
  SubmitForm.disabledReason Samples.form_context Samples.uploading
  = SubmitForm.Normal (Defined "Currently uploading submission") ∧
  String.prefix "Past due" "Currently uploading submission" = false.
Proof. repeat split; reflexivity. Qed.

(** C8 (witness): the past-due assignment, with a summary typed in and no
    upload in progress. *)
Lemma closed_assignment_disables_submit_witness :
  SubmitForm.disabled Samples.form_context Samples.typed = true ∧
  SubmitForm.disabledReason Samples.form_context Samples.typed
  = SubmitForm.Normal
      (Defined
         "Past due. Please contact your instructors if you need an extension").
Proof.
  destruct (closed_assignment_disables_submit Samples.form_context Samples.typed
              Samples.past_due_assignment (SubmitForm.mkCourse 2)
              eq_refl eq_refl) as (Hd & Hreason & _).
  split; [exact Hd|].
  exact (proj1 (Hreason eq_refl eq_refl eq_refl)).
Defined.

(** C10 (witness): a failed and a successful submission from
    ["class/hw1"]. *)
Lemma submit_clears_only_on_success_witness :
  SubmitForm.summaryText
    (SubmitForm.submitAssignment false Samples.form_context Samples.typed)
  = "final version" ∧
  SubmitForm.summaryText
    (SubmitForm.submitAssignment true Samples.form_context Samples.typed)
  = "".
Proof.
  split.
  - exact (proj1 (proj2 (proj2 (submit_clears_only_on_success false
             Samples.form_context Samples.typed "class/hw1" eq_refl
             ltac:(discriminate))) eq_refl)).
  - exact (proj1 (proj1 (proj2 (submit_clears_only_on_success true
             Samples.form_context Samples.typed "class/hw1" eq_refl
             ltac:(discriminate))) eq_refl)).
Defined.

(* ===================================================================== *)
(** ** Facts about the date fields *)
(* ===================================================================== *)

Section DebounceFacts.
Import AssignmentInfo.
Context {A : Type}.

(** The first call of a burst is delivered at once. *)
Lemma call_leading (now : Z) (x : A) (d : Debounced A) :
  quiet now d → call true now x d = (mkDebounced (Some now) None true, [x]).
Proof. intros [Ht Hs]. unfold call. by rewrite Ht, Hs. Qed.

(** A call while the timer is pending is kept for the trailing edge. *)
Lemma call_coalesced (leading : bool) (now : Z) (x : A) (d : Debounced A) :
  timerPending d = true →
  call leading now x d = (mkDebounced (Some now) (Some x) true, []).
Proof. intros Ht. unfold call. by rewrite Ht, andb_false_r. Qed.

(** A timer that fires before the window has passed delivers nothing. *)
Lemma timerExpired_early (now t : Z) (x : option A) :
  (t ≤ now < t + wait)%Z →
  timerExpired now (mkDebounced (Some t) x true)
  = (mkDebounced (Some t) x true, []).
Proof.
  intros Hnow. unfold timerExpired, shouldInvoke. simpl.
  destruct (Z.leb_spec wait (now - t)); [lia|].
  destruct (Z.ltb_spec (now - t) 0); [lia|]. done.
Qed.

(** A timer that fires after the window delivers what is waiting. *)
Lemma timerExpired_trailing (now t : Z) (x : option A) :
  (t + wait ≤ now)%Z →
  timerExpired now (mkDebounced (Some t) x true)
  = (mkDebounced (Some t) None false,
     match x with Some x => [x] | None => [] end).
Proof.
  intros Hnow. unfold timerExpired, shouldInvoke. simpl.
  destruct (Z.leb_spec wait (now - t)); [done|lia].
Qed.

End DebounceFacts.

Section PanelFacts.
Import AssignmentInfo.
Context (Date_parse : string → option Z).
Context (addLocalTimezone : string → string).

#[local] Abbreviation step := (step Date_parse addLocalTimezone).
#[local] Abbreviation exec := (exec Date_parse addLocalTimezone).
#[local] Abbreviation update := (update addLocalTimezone).
#[local] Abbreviation rejected := (rejected Date_parse).
#[local] Abbreviation onDueChange := (onDueChange Date_parse addLocalTimezone).
#[local] Abbreviation onAvailableChange :=
  (onAvailableChange Date_parse addLocalTimezone).

(** An accepted edit of [f]: the controlled value follows, the call goes to
    the field's own debounced callback, and what that delivers is sent. *)
Lemma step_edit (a : AssignmentView) (st : State) (f : Field) (now : Z) (v : string) :
  rejected a f v = false →
  controlled f (step a st (Edit f now v)) = v ∧
  debounced f (step a st (Edit f now v))
  = (call leading now v (debounced f st)).1 ∧
  debounced (other f) (step a st (Edit f now v)) = debounced (other f) st ∧
  requests (step a st (Edit f now v))
  = requests st ++ (update a f <$> (call leading now v (debounced f st)).2).
Proof.
  intros Hrej. destruct f; simpl in *;
    unfold AssignmentInfo.onAvailableChange, AssignmentInfo.onDueChange;
    rewrite Hrej;
    [destruct (call leading now v (onAvailableDateChanged st))
    |destruct (call leading now v (onDueDateChanged st))]; done.
Qed.

Lemma step_timer (a : AssignmentView) (st : State) (f : Field) (now : Z) :
  debounced f (step a st (TimerExpired f now))
  = (timerExpired now (debounced f st)).1 ∧
  debounced (other f) (step a st (TimerExpired f now)) = debounced (other f) st ∧
  requests (step a st (TimerExpired f now))
  = requests st ++ (update a f <$> (timerExpired now (debounced f st)).2).
Proof.
  destruct f; simpl; unfold availableTimer, dueTimer;
    [destruct (timerExpired now (onAvailableDateChanged st))
    |destruct (timerExpired now (onDueDateChanged st))]; done.
Qed.

Lemma exec_cons (a : AssignmentView) (st : State) (ev : Event) (evs : list Event) :
  exec a st (ev :: evs) = exec a (step a st ev) evs.
Proof. done. Qed.

Lemma exec_nil (a : AssignmentView) (st : State) : exec a st [] = st.
Proof. done. Qed.

Lemma exec_app (a : AssignmentView) (st : State) (evs evs' : list Event) :
  exec a st (evs ++ evs') = exec a (exec a st evs) evs'.
Proof. apply foldl_app. Qed.

(** Timers that fire before the window has passed change nothing that is
    sent nor what is waiting. *)
Lemma exec_early_timers (a : AssignmentView) (f : Field) (t : Z) (x : option string)
    (early : list Z) (st : State) :
  Forall (λ now, t ≤ now < t + wait)%Z early →
  debounced f st = mkDebounced (Some t) x true →
  debounced f (exec a st (TimerExpired f <$> early)) = mkDebounced (Some t) x true ∧
  requests (exec a st (TimerExpired f <$> early)) = requests st.
Proof.
  intros Hearly. revert st.
  induction Hearly as [|now early Hnow _ IH]; intros st Hd; [done|].
  rewrite fmap_cons, exec_cons.
  destruct (step_timer a st f now) as (Hd' & _ & Hreq).
  rewrite Hd, timerExpired_early in Hd', Hreq by done.
  cbn [fst snd fmap list_fmap] in Hd', Hreq.
  destruct (IH _ Hd') as [-> ->]. by rewrite Hreq, app_nil_r.
Qed.

(** C6 (as amended): three accepted edits of one field within one debounce
    window (no burst was in progress, and the timer does not run out
    between the edits) send two requests, the first edit's value at once and
    the last edit's value when the window after the last edit has passed;
    the second value is never sent.  Edits of the two fields are debounced
    apart: each is sent at once. *)
Theorem burst_sends_first_and_last
    (a : AssignmentView) (st : State) (f : Field)
    (t1 t2 t3 t4 : Z) (early : list Z) (v1 v2 v3 : string) :
  (quiet t1 (debounced f st) →
   rejected a f v1 = false → rejected a f v2 = false → rejected a f v3 = false →
   Forall (λ now, t3 ≤ now < t3 + wait)%Z early → (t3 + wait ≤ t4)%Z →
   requests (exec a st ([Edit f t1 v1; Edit f t2 v2; Edit f t3 v3]
                        ++ (TimerExpired f <$> early) ++ [TimerExpired f t4]))
   = requests st ++ [update a f v1; update a f v3]) ∧
  (quiet t1 (debounced f st) → quiet t2 (debounced (other f) st) →
   rejected a f v1 = false → rejected a (other f) v2 = false →
   requests (exec a st [Edit f t1 v1; Edit (other f) t2 v2])
   = requests st ++ [update a f v1; update a (other f) v2]).
Proof.
  split.
  - intros Hq H1 H2 H3 Hearly H4.
    rewrite !exec_app, !exec_cons, !exec_nil.
    destruct (step_edit a st f t1 v1 H1) as (_ & Hd1 & _ & Hr1).
    rewrite call_leading in Hd1, Hr1 by done.
    set (st1 := step a st (Edit f t1 v1)) in *.
    destruct (step_edit a st1 f t2 v2 H2) as (_ & Hd2 & _ & Hr2).
    rewrite Hd1, call_coalesced in Hd2, Hr2 by done.
    set (st2 := step a st1 (Edit f t2 v2)) in *.
    destruct (step_edit a st2 f t3 v3 H3) as (_ & Hd3 & _ & Hr3).
    rewrite Hd2, call_coalesced in Hd3, Hr3 by done.
    set (st3 := step a st2 (Edit f t3 v3)) in *.
    destruct (exec_early_timers a f t3 (Some v3) early st3 Hearly Hd3)
      as [Hd4 Hr4].
    set (st4 := exec a st3 (TimerExpired f <$> early)) in *.
    destruct (step_timer a st4 f t4) as (_ & _ & Hr5).
    rewrite Hd4, timerExpired_trailing in Hr5 by done.
    rewrite Hr5, Hr4, Hr3, Hr2, Hr1. cbn [fst snd fmap list_fmap].
    by rewrite !app_nil_r, <-app_assoc.
  - intros Hq1 Hq2 H1 H2.
    rewrite !exec_cons, !exec_nil.
    destruct (step_edit a st f t1 v1 H1) as (_ & _ & Hd1 & Hr1).
    rewrite call_leading in Hr1 by done.
    set (st1 := step a st (Edit f t1 v1)) in *.
    destruct (step_edit a st1 (other f) t2 v2 H2) as (_ & _ & _ & Hr2).
    rewrite Hd1, call_leading in Hr2 by done.
    rewrite Hr2, Hr1. cbn [fst snd fmap list_fmap].
    by rewrite <-app_assoc.
Qed.

(** C7: a due date at or before the assignment's available date, and an
    available date at or after its due date, is rejected: the handler leaves
    the panel as it was, controlled values, pending calls and requests
    included. *)
Theorem invalid_date_edit_rejected
    (a : AssignmentView) (st : State) (now : Z) (v : string)
    (other_date : Date) (t t' : Z) :
  Date_parse v = Some t → getTime other_date = Some t' →
  (availableDate a = Some other_date → (t ≤ t')%Z →
     onDueChange a now v st = st) ∧
  (dueDate a = Some other_date → (t' ≤ t)%Z →
     onAvailableChange a now v st = st).
Proof.
  intros Hv Hd. split; intros Ha Hle;
    unfold AssignmentInfo.onDueChange, AssignmentInfo.onAvailableChange,
      due_rejected, available_rejected;
    rewrite Ha, Hv, Hd; simpl;
    destruct (Z.leb_spec t t'), (Z.leb_spec t' t); try done; lia.
Qed.

End PanelFacts.

(** C6 (counterexample): three edits of the available date within 400 ms,
    then the timer: two requests are sent, for the first and the last
    value. *)
Lemma burst_sends_two_requests :
  AssignmentInfo.requests
    (AssignmentInfo.exec Samples.sample_parse Samples.addLocalTimezone
       Samples.unreleased Samples.panel
       [ AssignmentInfo.Edit AssignmentInfo.available_date 0 "2024-01-01T00:00";
         AssignmentInfo.Edit AssignmentInfo.available_date 200 "2024-01-02T00:00";
         AssignmentInfo.Edit AssignmentInfo.available_date 400 "2024-01-03T00:00";
         AssignmentInfo.TimerExpired AssignmentInfo.available_date 1000;
         AssignmentInfo.TimerExpired AssignmentInfo.available_date 1400 ])
  = [ AssignmentInfo.mkRequest "hw2" AssignmentInfo.available_date
        (Some "2024-01-01T00:00+00:00");
      AssignmentInfo.mkRequest "hw2" AssignmentInfo.available_date
        (Some "2024-01-03T00:00+00:00") ].
Proof. reflexivity. Qed.

(** C6 (witness): the same burst, and an edit of each field. *)
Lemma burst_sends_first_and_last_witness :
  AssignmentInfo.requests
    (AssignmentInfo.exec Samples.sample_parse Samples.addLocalTimezone
       Samples.unreleased Samples.panel
       ([ AssignmentInfo.Edit AssignmentInfo.available_date 0 "2024-01-01T00:00";
          AssignmentInfo.Edit AssignmentInfo.available_date 200 "2024-01-02T00:00";
          AssignmentInfo.Edit AssignmentInfo.available_date 400 "2024-01-03T00:00" ]
        ++ (AssignmentInfo.TimerExpired AssignmentInfo.available_date <$> [1000%Z])
        ++ [ AssignmentInfo.TimerExpired AssignmentInfo.available_date 1400 ]))
  = AssignmentInfo.requests Samples.panel
    ++ [ AssignmentInfo.update Samples.addLocalTimezone Samples.unreleased
           AssignmentInfo.available_date "2024-01-01T00:00";
         AssignmentInfo.update Samples.addLocalTimezone Samples.unreleased
           AssignmentInfo.available_date "2024-01-03T00:00" ].
Proof.
  apply (proj1 (burst_sends_first_and_last Samples.sample_parse
                  Samples.addLocalTimezone Samples.unreleased Samples.panel
                  AssignmentInfo.available_date 0 200 400 1400 [1000%Z]
                  "2024-01-01T00:00" "2024-01-02T00:00" "2024-01-03T00:00"));
    try reflexivity; try (split; reflexivity); unfold AssignmentInfo.wait; try lia.
  repeat constructor; lia.
Defined.

(** C7 (witness): with the assignment available from 1 January, a due date
    of 1 January is rejected. *)
Lemma invalid_date_edit_rejected_witness :
  AssignmentInfo.onDueChange Samples.sample_parse Samples.addLocalTimezone
    Samples.view 0 "2024-01-01T00:00" Samples.panel
  = Samples.panel.
Proof.
  apply (proj1 (invalid_date_edit_rejected Samples.sample_parse
                  Samples.addLocalTimezone Samples.view Samples.panel 0
                  "2024-01-01T00:00" (mkDate (Some 1704067200000%Z))
                  1704067200000 1704067200000 eq_refl eq_refl));
    [reflexivity|lia].
Defined.

(* ===================================================================== *)
(** ** More about [activeSubmission]: the order it leaves behind *)
(* ===================================================================== *)

Section ActiveSubmissionOrder.
Import Assignment.
Context {Submission : Type}.
Context (submissionTime : Submission → Date).

#[local] Abbreviation Assignment := (Assignment Submission).
#[local] Abbreviation activeSubmission := (activeSubmission submissionTime).
#[local] Abbreviation valid_time := (valid_time submissionTime).
#[local] Abbreviation newer_or_same := (newer_or_same submissionTime).
#[local] Abbreviation newest_first := (newest_first submissionTime).
#[local] Abbreviation by_time_desc := (by_time_desc submissionTime).

Lemma newer_or_same_trans (a b c : Submission) :
  newer_or_same a b → newer_or_same b c → newer_or_same a c.
Proof.
  intros (ta & tb & Ha & Hb & Hab) (tb' & tc & Hb' & Hc & Hbc).
  unfold time_is in *. assert (tb' = tb) as -> by congruence.
  exists ta, tc. split_and!; [done..|lia].
Qed.

Lemma sorts_after_newer (x y : Submission) :
  valid_time x → valid_time y →
  if sorts_after by_time_desc x y then newer_or_same y x else newer_or_same x y.
Proof.
  intros [tx Hx] [ty Hy]. unfold sorts_after, Assignment.by_time_desc.
  rewrite Hx, Hy. simpl. destruct (Z.ltb_spec 0 (ty - tx)).
  - exists ty, tx. split_and!; [done..|lia].
  - exists tx, ty. split_and!; [done..|lia].
Qed.

Lemma sort_insert_newest_first (x : Submission) (l : list Submission) :
  valid_time x → Forall valid_time l → newest_first l →
  newest_first (sort_insert by_time_desc x l).
Proof.
  intros Hx Hvalid Hsorted. induction Hsorted as [|y l Hl IH Hy]; simpl.
  { repeat constructor. }
  apply Forall_cons_1 in Hvalid as [Hvy Hvalid].
  pose proof (sorts_after_newer x y Hx Hvy) as Hxy.
  destruct (sorts_after by_time_desc x y).
  - constructor; [by apply IH|].
    rewrite sort_insert_perm. by constructor.
  - constructor; [by constructor|]. constructor; [done|].
    eapply Forall_impl; [|exact Hy]. intros z Hz.
    by eapply newer_or_same_trans.
Qed.

Lemma Array_sort_valid (l : list Submission) :
  Forall valid_time l → Forall valid_time (Array_sort by_time_desc l).
Proof. intros Hvalid. by rewrite Array_sort_perm. Qed.

Lemma Array_sort_newest_first (l : list Submission) :
  Forall valid_time l → newest_first (Array_sort by_time_desc l).
Proof.
  induction l as [|x l IH]; intros Hvalid; simpl; [constructor|].
  apply Forall_cons_1 in Hvalid as [Hx Hvalid].
  apply sort_insert_newest_first; [done|by apply Array_sort_valid|by apply IH].
Qed.

(** Sorting an array that is stored newest first changes nothing. *)
Lemma Array_sort_fixed (l : list Submission) :
  newest_first l → Array_sort by_time_desc l = l.
Proof.
  induction 1 as [|x l Hl IH Hx]; simpl; [done|].
  rewrite IH. destruct Hx as [|y l' Hxy _]; simpl; [done|].
  destruct Hxy as (tx & ty & Htx & Hty & Hle).
  unfold sorts_after, Assignment.by_time_desc. unfold time_is in *.
  rewrite Htx, Hty. simpl. by destruct (Z.ltb_spec 0 (ty - tx)); [lia|].
Qed.

(** X2: after [activeSubmission] has been read, the submissions of the object
    are the same submissions stored newest first. *)
Theorem activeSubmission_leaves_newest_first (a : Assignment) (l : list Submission) :
  get_submissions a = Defined l → Forall valid_time l →
  ∃ l', get_submissions (activeSubmission a).2 = Defined l' ∧
        l' ≡ₚ l ∧ newest_first l'.
Proof.
  unfold get_submissions, Assignment.activeSubmission. intros Hl Hvalid.
  rewrite Hl. destruct l as [|x l].
  - exists []. split; [done|]. split; [done|constructor].
  - exists (Array_sort by_time_desc (x :: l)). split_and!; [done| |].
    + apply Array_sort_perm.
    + by apply Array_sort_newest_first.
Qed.

(** X3: reading [activeSubmission] a second time returns the same submission
    and changes the object no further. *)
Theorem activeSubmission_read_twice (a : Assignment) (l : list Submission) :
  get_submissions a = Defined l → Forall valid_time l →
  activeSubmission (activeSubmission a).2 = activeSubmission a.
Proof.
  unfold get_submissions. intros Hl Hvalid.
  destruct a as [? ? ? ? ? ? ? ? ? ? ? ? ? subs]. simpl in Hl. subst subs.
  destruct l as [|x l]; [done|].
  unfold Assignment.activeSubmission. cbn [_submissions].
  destruct (Array_sort_cons_inv by_time_desc x l) as (s & rest & Hsort).
  pose proof (Array_sort_newest_first (x :: l) Hvalid) as Hsorted.
  rewrite Hsort in *. cbn [snd _submissions set_submissions].
  rewrite (Array_sort_fixed (s :: rest) Hsorted). done.
Qed.

End ActiveSubmissionOrder.

(** X2 (witness): the two sample submissions, stored oldest first. *)
Lemma activeSubmission_leaves_newest_first_witness :
  ∃ l', Assignment.get_submissions
          (Assignment.activeSubmission Samples.submissionTime
             Samples.two_submissions).2 = Defined l' ∧
        l' ≡ₚ [Samples.first_submission; Samples.second_submission] ∧
        Assignment.newest_first Samples.submissionTime l'.
Proof.
  apply (activeSubmission_leaves_newest_first Samples.submissionTime
           Samples.two_submissions).
  - reflexivity.
  - repeat constructor; eexists; reflexivity.
Defined.

(** X3 (witness): the same assignment, read twice. *)
Lemma activeSubmission_read_twice_witness :
  Assignment.activeSubmission Samples.submissionTime
    (Assignment.activeSubmission Samples.submissionTime Samples.two_submissions).2
  = Assignment.activeSubmission Samples.submissionTime Samples.two_submissions.
Proof.
  apply (activeSubmission_read_twice Samples.submissionTime
           Samples.two_submissions
           [Samples.first_submission; Samples.second_submission]).
  - reflexivity.
  - repeat constructor; eexists; reflexivity.
Defined.

(* ===================================================================== *)
(** ** More about the poll loop: live runs, unmounting, cancelled runs *)
(* ===================================================================== *)

Section PollLifecycle.
Import AssignmentProvider.
Context {IAssignment ICurrentAssignment : Type}.

#[local] Abbreviation State := (State IAssignment ICurrentAssignment).
#[local] Abbreviation Result := (FetchResult IAssignment ICurrentAssignment).
#[local] Abbreviation Event := (Event IAssignment ICurrentAssignment).

(** In every state the provider can reach, at most one run of the poll
    effect has not been cancelled. *)
Lemma at_most_one_live_run (st : State) (i j : nat) (ri rj : EffectRun) :
  reachable st →
  runs st !! i = Some ri → cancelled ri = false →
  runs st !! j = Some rj → cancelled rj = false →
  i = j.
Proof.
  intros Hreach Hi Hci Hj Hcj.
  pose proof (reachable_older_runs_cancelled st Hreach) as Hinv.
  pose proof (lookup_lt_Some _ _ _ Hi) as Hli.
  pose proof (lookup_lt_Some _ _ _ Hj) as Hlj.
  destruct (decide (S i < length (runs st))) as [Hlt|Hge].
  { specialize (Hinv i ri Hi Hlt). congruence. }
  destruct (decide (S j < length (runs st))) as [Hlt|Hge'].
  { specialize (Hinv j rj Hj Hlt). congruence. }
  lia.
Qed.

Lemma timerFired_length (st : State) i :
  length (runs (timerFired i st)) = length (runs st).
Proof.
  destruct (timerFired_runs st i) as [->|(r & s & _ & ->)]; [done|].
  by rewrite length_insert.
Qed.

Lemma fetchSettled_length (st : State) i (res : Result) :
  length (runs (fetchSettled i res st)) = length (runs st).
Proof.
  destruct (fetchSettled_runs st i res) as [->|(r & s & _ & ->)]; [done|].
  by rewrite length_insert.
Qed.

Lemma timerFired_mounted (st : State) i : mounted (timerFired i st) = mounted st.
Proof.
  unfold timerFired. destruct (runs st !! i) as [r|]; [|done].
  destruct (status r); try done. destruct (run_path r); [done|].
  unfold resume. by destruct (cancelled r).
Qed.

Lemma fetchSettled_mounted (st : State) i (res : Result) :
  mounted (fetchSettled i res st) = mounted st.
Proof.
  unfold fetchSettled. destruct (runs st !! i) as [r|]; [|done].
  destruct (status r); try done.
  destruct res; unfold resume; by destruct (cancelled r).
Qed.

Lemma torn_down_step (st : State) (ev : Event) :
  torn_down st →
  torn_down (step st ev) ∧
  assignments (step st ev) = assignments st ∧
  currentAssignment (step st ev) = currentAssignment st ∧
  currentPath (step st ev) = currentPath st.
Proof.
  intros [Hm Hall].
  assert (length (runs (step st ev)) = length (runs st)
          ∧ mounted (step st ev) = false) as [Hlen Hm'].
  { destruct ev as [p|i|i res|]; simpl.
    - unfold setCurrentPath. by rewrite Hm.
    - by rewrite timerFired_length, timerFired_mounted.
    - by rewrite fetchSettled_length, fetchSettled_mounted.
    - split; [|done]. unfold unmount. cbn [runs]. apply cleanup_length. }
  split; [split; [done|]|].
  - intros j r' Hj.
    assert (is_Some (runs st !! j)) as [r0 Hr0].
    { apply lookup_lt_is_Some. rewrite <-Hlen. eauto using lookup_lt_Some. }
    destruct (step_keeps_cancelled st ev j r0 Hr0) as (r'' & Hr'' & Hc).
    rewrite Hj in Hr''. injection Hr'' as <-. eauto.
  - destruct ev as [p|i|i res|]; simpl.
    + unfold setCurrentPath. by rewrite Hm.
    + unfold timerFired. destruct (runs st !! i) as [r|] eqn:Hr; [|done].
      destruct (status r); try done. destruct (run_path r); [done|].
      by destruct (resume_slots_cancelled st i r Undefined (Hall i r Hr))
        as (-> & -> & -> & _).
    + unfold fetchSettled. destruct (runs st !! i) as [r|] eqn:Hr; [|done].
      destruct (status r); try done. destruct res as [v|e].
      * by destruct (resume_slots_cancelled st i r (Defined v) (Hall i r Hr))
          as (-> & -> & -> & _).
      * by destruct (resume_slots_cancelled (catch_failure e st) i r Undefined
                       (Hall i r Hr)) as (-> & -> & -> & _).
    + unfold unmount, cleanup. by destruct (runs st).
Qed.

Lemma torn_down_exec (evs : list Event) (st : State) :
  torn_down st →
  assignments (exec st evs) = assignments st ∧
  currentAssignment (exec st evs) = currentAssignment st ∧
  currentPath (exec st evs) = currentPath st.
Proof.
  revert st. induction evs as [|ev evs IH]; intros st Hst; simpl; [done|].
  destruct (torn_down_step st ev Hst) as (Hst' & <- & <- & <-).
  by apply IH.
Qed.

Lemma unmount_torn_down (st : State) :
  older_runs_cancelled st → torn_down (unmount st).
Proof.
  intros Hinv. split; [done|]. intros i r Hi. unfold unmount in Hi.
  cbn [runs] in Hi. eauto using older_runs_cancelled_cleanup.
Qed.

(** X5: once the provider is unmounted, nothing that still happens (timers
    that fire, fetches that settle, path changes) writes a slot or the
    path. *)
Theorem unmounted_provider_is_frozen (st : State) (evs : list Event) :
  reachable st →
  assignments (exec (step st Unmounted) evs) = assignments st ∧
  currentAssignment (exec (step st Unmounted) evs) = currentAssignment st ∧
  currentPath (exec (step st Unmounted) evs) = currentPath st.
Proof.
  intros Hreach.
  destruct (torn_down_exec evs (unmount st)) as (Ha & Hc & Hp).
  { by apply unmount_torn_down, reachable_older_runs_cancelled. }
  simpl. rewrite Ha, Hc, Hp. unfold unmount, cleanup. by destruct (runs st).
Qed.

Lemma stopped_stays (st : State) (ev : Event) i r :
  runs st !! i = Some r → status r = Stopped →
  ∃ r', runs (step st ev) !! i = Some r' ∧ status r' = Stopped.
Proof.
  intros Hi Hs. pose proof (lookup_lt_Some _ _ _ Hi) as Hlt.
  assert (∀ j rj s, runs st !! j = Some rj → status rj ≠ Stopped →
            ∃ r', <[j:=mkRun (run_path rj) (cancelled rj) s]> (runs st) !! i
                  = Some r' ∧ status r' = Stopped) as Hins.
  { intros j rj s Hj Hne. rewrite list_lookup_insert_ne; [eauto|].
    intros ->. congruence. }
  destruct ev as [p|j|j res|]; simpl.
  - unfold setCurrentPath. destruct (negb (mounted st)); [eauto|].
    case_decide; [eauto|]. unfold runEffect. cbn [runs].
    erewrite lookup_app_l_Some by by apply cleanup_lookup.
    eexists. split; [done|]. by case_decide.
  - unfold timerFired. destruct (runs st !! j) as [rj|] eqn:Hj; [|eauto].
    destruct (status rj) eqn:Hsj; eauto.
    destruct (run_path rj) eqn:Hpj.
    + unfold setRun, setRuns. cbn [runs]. rewrite <-Hpj.
      apply Hins; congruence.
    + rewrite resume_runs. apply Hins; congruence.
  - unfold fetchSettled. destruct (runs st !! j) as [rj|] eqn:Hj; [|eauto].
    destruct (status rj) eqn:Hsj; eauto.
    destruct res; rewrite resume_runs; apply Hins; congruence.
  - unfold unmount. cbn [runs]. rewrite (cleanup_lookup st i r Hi).
    eexists. split; [done|]. by case_decide.
Qed.

Lemma stopped_stays_exec (evs : list Event) (st : State) i r :
  runs st !! i = Some r → status r = Stopped →
  ∃ r', runs (exec st evs) !! i = Some r' ∧ status r' = Stopped.
Proof.
  revert st r. induction evs as [|ev evs IH]; intros st r Hi Hs; simpl; [eauto|].
  destruct (stopped_stays st ev i r Hi Hs) as (r' & Hi' & Hs'). eauto.
Qed.

(** X6: cancelling a run does not clear its timer: when the timer of a
    cancelled run fires, [poll] still starts a fetch for the old path; when
    that fetch settles the run writes nothing and stops for good. *)
Theorem cancelled_run_fetches_once_more
    (st : State) (i : nat) (r : EffectRun) (p : string) (res : Result)
    (evs : list Event) :
  runs st !! i = Some r → cancelled r = true → status r = Waiting →
  run_path r = Some p →
  runs (timerFired i st) !! i = Some (mkRun (Some p) true Fetching) ∧
  assignments (attempt i res st) = assignments st ∧
  currentAssignment (attempt i res st) = currentAssignment st ∧
  runs (attempt i res st) !! i = Some (mkRun (Some p) true Stopped) ∧
  ∃ r', runs (exec (attempt i res st) evs) !! i = Some r' ∧ status r' = Stopped.
Proof.
  intros Hi Hc Hs Hp. destruct r as [rp rc rs]. simpl in *. subst.
  pose proof (lookup_lt_Some _ _ _ Hi) as Hlt.
  assert (timerFired i st = setRun st i (mkRun (Some p) true Fetching)) as Ht.
  { unfold timerFired. by rewrite Hi. }
  assert (runs (attempt i res st) !! i = Some (mkRun (Some p) true Stopped)
          ∧ assignments (attempt i res st) = assignments st
          ∧ currentAssignment (attempt i res st) = currentAssignment st)
    as (Hrun & Ha & Hcur).
  { unfold attempt. rewrite Ht. unfold fetchSettled, setRun, setRuns.
    cbn [runs]. rewrite list_lookup_insert_eq by done. cbn [status].
    destruct res as [v|e]; unfold resume; cbn [cancelled]; simpl;
      rewrite list_lookup_insert_eq by (by rewrite length_insert); done. }
  split_and!; try done.
  - rewrite Ht. unfold setRun, setRuns. cbn [runs].
    by rewrite list_lookup_insert_eq.
  - by eapply stopped_stays_exec.
Qed.

End PollLifecycle.

(** X5 (witness): a fetch is in flight when the provider is unmounted; its
    snapshot arrives afterwards. *)
Lemma unmounted_provider_is_frozen_witness :
  let st :=
    AssignmentProvider.exec AssignmentProvider.init
      [ AssignmentProvider.PathChanged (Some "hw1");
        AssignmentProvider.TimerFired 1 ] in
  let st' :=
    AssignmentProvider.exec
      (AssignmentProvider.step st AssignmentProvider.Unmounted)
      [ AssignmentProvider.FetchSettled 1
          (AssignmentProvider.Fulfilled Samples.snapshot_A) ] in
  AssignmentProvider.assignments st' = AssignmentProvider.assignments st ∧
  AssignmentProvider.currentAssignment st'
  = AssignmentProvider.currentAssignment st ∧
  AssignmentProvider.currentPath st' = AssignmentProvider.currentPath st.
Proof.
  apply (unmounted_provider_is_frozen
           (AssignmentProvider.exec AssignmentProvider.init
              [ AssignmentProvider.PathChanged (Some "hw1");
                AssignmentProvider.TimerFired 1 ])
           [ AssignmentProvider.FetchSettled 1
               (AssignmentProvider.Fulfilled Samples.snapshot_A) ]).
  apply reachable_exec, AssignmentProvider.reachable_init.
Defined.

(** X6 (witness): the path changes from ["hw1"] to ["hw2"] while the first
    timer of the run for ["hw1"] is pending. *)
Lemma cancelled_run_fetches_once_more_witness :
  let st :=
    AssignmentProvider.exec AssignmentProvider.init
      [ AssignmentProvider.PathChanged (Some "hw1");
        AssignmentProvider.PathChanged (Some "hw2") ] in
  AssignmentProvider.runs (AssignmentProvider.timerFired 1 st) !! 1
  = Some (AssignmentProvider.mkRun (Some "hw1") true AssignmentProvider.Fetching) ∧
  AssignmentProvider.assignments
    (AssignmentProvider.attempt 1
       (AssignmentProvider.Fulfilled Samples.snapshot_A) st)
  = AssignmentProvider.assignments st.
Proof.
  destruct (cancelled_run_fetches_once_more
              (AssignmentProvider.exec AssignmentProvider.init
                 [ AssignmentProvider.PathChanged (Some "hw1");
                   AssignmentProvider.PathChanged (Some "hw2") ])
              1
              (AssignmentProvider.mkRun (Some "hw1") true AssignmentProvider.Waiting)
              "hw1" (AssignmentProvider.Fulfilled Samples.snapshot_A) []
              eq_refl eq_refl eq_refl eq_refl) as (H1 & H2 & _).
  split; [exact H1|exact H2].
Defined.

Section LiveRun.
Import AssignmentProvider.
Context {IAssignment ICurrentAssignment : Type}.

#[local] Abbreviation State := (State IAssignment ICurrentAssignment).
#[local] Abbreviation Result := (FetchResult IAssignment ICurrentAssignment).
#[local] Abbreviation Event := (Event IAssignment ICurrentAssignment).

Lemma timerFired_currentPath (st : State) i :
  currentPath (timerFired i st) = currentPath st.
Proof.
  unfold timerFired. destruct (runs st !! i) as [r|]; [|done].
  destruct (status r); try done. destruct (run_path r); [done|].
  unfold resume. by destruct (cancelled r).
Qed.

Lemma fetchSettled_currentPath (st : State) i (res : Result) :
  currentPath (fetchSettled i res st) = currentPath st.
Proof.
  unfold fetchSettled. destruct (runs st !! i) as [r|]; [|done].
  destruct (status r); try done.
  destruct res; unfold resume; by destruct (cancelled r).
Qed.

Lemma insert_same_path (rs : list EffectRun) i r s j r' :
  rs !! i = Some r →
  <[i:=mkRun (run_path r) (cancelled r) s]> rs !! j = Some r' →
  ∃ r0, rs !! j = Some r0 ∧ run_path r' = run_path r0.
Proof.
  intros Hi Hj. destruct (decide (i = j)) as [->|Hne].
  - rewrite list_lookup_insert_eq in Hj by eauto using lookup_lt_Some.
    injection Hj as <-. eauto.
  - rewrite list_lookup_insert_ne in Hj by done. eauto.
Qed.

Lemma step_current_run_polls_path (st : State) (ev : Event) :
  current_run_polls_path st → current_run_polls_path (step st ev).
Proof.
  intros Hinv j r' Hj Hlast. destruct ev as [p|i|i res|]; simpl in *.
  - unfold setCurrentPath in *. destruct (negb (mounted st)); [eauto|].
    case_decide; [eauto|]. unfold runEffect in *. cbn [runs currentPath] in *.
    rewrite length_app in Hlast. simpl in Hlast.
    rewrite lookup_app_r in Hj by lia.
    replace (j - length (runs (cleanup st))) with 0 in Hj by lia.
    by injection Hj as <-.
  - rewrite timerFired_currentPath. rewrite timerFired_length in Hlast.
    destruct (timerFired_runs st i) as [Heq|(r & s & Hi & Heq)];
      rewrite Heq in Hj; [eauto|].
    destruct (insert_same_path _ _ _ _ _ _ Hi Hj) as (r0 & Hr0 & ->). eauto.
  - rewrite fetchSettled_currentPath. rewrite fetchSettled_length in Hlast.
    destruct (fetchSettled_runs st i res) as [Heq|(r & s & Hi & Heq)];
      rewrite Heq in Hj; [eauto|].
    destruct (insert_same_path _ _ _ _ _ _ Hi Hj) as (r0 & Hr0 & ->). eauto.
  - unfold unmount in *. cbn [runs currentPath] in *.
    rewrite cleanup_length in Hlast.
    assert (is_Some (runs st !! j)) as [r0 Hr0].
    { apply lookup_lt_is_Some. lia. }
    rewrite (cleanup_lookup st j r0 Hr0) in Hj. injection Hj as <-.
    assert (currentPath (cleanup st) = currentPath st) as ->.
    { unfold cleanup. by destruct (runs st). }
    case_decide; simpl; eauto.
Qed.

Lemma reachable_current_run_polls_path (st : State) :
  reachable st → current_run_polls_path st.
Proof.
  induction 1 as [|st ev _ IH]; [|by apply step_current_run_polls_path].
  intros [|i] r Hi Hlen; simpl in *; [|lia]. by injection Hi as <-.
Qed.

Lemma reachable_unmounted_torn_down (st : State) :
  reachable st → mounted st = false → torn_down st.
Proof.
  induction 1 as [|st ev Hreach IH]; [done|]. intros Hm.
  destruct (mounted st) eqn:Hm0.
  - destruct ev as [p|i|i res|]; simpl in *.
    + unfold setCurrentPath in Hm. rewrite Hm0 in Hm. simpl in Hm.
      case_decide; [congruence|]. unfold runEffect in Hm. simpl in Hm.
      unfold cleanup in Hm. destruct (runs st); simpl in Hm; congruence.
    + rewrite timerFired_mounted in Hm. congruence.
    + rewrite fetchSettled_mounted in Hm. congruence.
    + by apply unmount_torn_down, reachable_older_runs_cancelled.
  - by apply torn_down_step, IH.
Qed.

(** X4: in every state the provider can reach, a run of the poll effect that
    has not been cancelled is the latest run, it polls the current path,
    and the provider is still mounted. *)
Theorem live_run_is_current (st : State) (i : nat) (r : EffectRun) :
  reachable st → runs st !! i = Some r → cancelled r = false →
  S i = length (runs st) ∧ run_path r = currentPath st ∧ mounted st = true.
Proof.
  intros Hreach Hi Hc.
  pose proof (lookup_lt_Some _ _ _ Hi) as Hlt.
  assert (S i = length (runs st)) as Hlast.
  { destruct (decide (S i < length (runs st))) as [Hlt'|]; [|lia].
    pose proof (reachable_older_runs_cancelled st Hreach i r Hi Hlt').
    congruence. }
  split_and!; [done| |].
  - by apply (reachable_current_run_polls_path st Hreach i r).
  - destruct (mounted st) eqn:Hm; [done|].
    destruct (reachable_unmounted_torn_down st Hreach Hm) as [_ Hall].
    specialize (Hall i r Hi). congruence.
Qed.

End LiveRun.

(** X4 (witness): after the path went from ["hw1"] to ["hw2"], the live run is
    the third one and polls ["hw2"]. *)
Lemma live_run_is_current_witness :
  let st :=
    AssignmentProvider.exec
      (AssignmentProvider.init
         (IAssignment:=Assignment.Assignment Samples.Submission)
         (ICurrentAssignment:=Assignment.Assignment Samples.Submission))
      [ AssignmentProvider.PathChanged (Some "hw1");
        AssignmentProvider.PathChanged (Some "hw2") ] in
  3 = length (AssignmentProvider.runs st) ∧
  Some "hw2" = AssignmentProvider.currentPath st ∧
  AssignmentProvider.mounted st = true.
Proof.
  apply (live_run_is_current
           (AssignmentProvider.exec AssignmentProvider.init
              [ AssignmentProvider.PathChanged (Some "hw1");
                AssignmentProvider.PathChanged (Some "hw2") ])
           2
           (AssignmentProvider.mkRun (Some "hw2") false AssignmentProvider.Waiting));
    [|reflexivity..].
  apply reachable_exec, AssignmentProvider.reachable_init.
Defined.

(* ===================================================================== *)
(** ** More about the websocket effect *)
(* ===================================================================== *)

Section PushChannelFacts.
Import PushChannel.

#[local] Instance ReadyState_eq_dec : EqDecision ReadyState.
Proof. solve_decision. Defined.

Lemma close_closed (l : list Socket) (i : nat) :
  alter close i (alter (setReadyState CLOSED) i l)
  = alter (setReadyState CLOSED) i l.
Proof. rewrite list_alter_alter_eq. by apply list_alter_ext. Qed.

(** The ["close"] event of a socket that is closed already, or is none, is
    not dispatched. *)
Lemma step_close_noop (st : State) (i : nat) :
  (∀ s, sockets st !! i = Some s → readyState s = CLOSED) →
  step st (CloseEvent i) = st.
Proof.
  intros Hc. simpl. destruct (sockets st !! i) as [[rs l]|]; [|done].
  specialize (Hc _ eq_refl). simpl in Hc. by subst rs.
Qed.

Lemma step_close_plain (st : State) (i : nat) (s : Socket) :
  sockets st !! i = Some s → readyState s ≠ CLOSED →
  reconnects_on_close s = false →
  step st (CloseEvent i)
  = mkState (mounted st) (alter (setReadyState CLOSED) i (sockets st)) (ws st).
Proof.
  intros Hi Hne Hl. simpl. rewrite Hi. destruct s as [[] l]; simpl in *;
    by rewrite ?Hl.
Qed.

Lemma step_close_reconnect (st : State) (s : Socket) :
  sockets st !! ws st = Some s → readyState s ≠ CLOSED →
  reconnects_on_close s = true →
  step st (CloseEvent (ws st))
  = if mounted st
    then mkState true
           (alter (setReadyState CLOSED) (ws st) (sockets st)
            ++ [mkSocket CONNECTING true])
           (length (sockets st))
    else mkState false
           (alter (setReadyState CLOSED) (ws st) (sockets st)
            ++ [mkSocket CONNECTING false])
           (ws st).
Proof.
  intros Hi Hne Hl. pose proof (lookup_lt_Some _ _ _ Hi) as Hlt.
  assert (step st (CloseEvent (ws st))
          = triggerReconnect (ws st)
              (mkState (mounted st)
                 (alter (setReadyState CLOSED) (ws st) (sockets st)) (ws st)))
    as ->.
  { simpl. rewrite Hi. destruct s as [[] l]; simpl in *; by rewrite ?Hl. }
  unfold triggerReconnect, setWs, newWebSocket, closeSocket, runEffect.
  cbn [mounted sockets ws]. rewrite close_closed.
  destruct (mounted st); [|done]. f_equal; [|by rewrite length_alter].
  rewrite alter_app_l by (by rewrite length_alter). rewrite close_closed.
  rewrite alter_app_r_alt by done. by rewrite Nat.sub_diag.
Qed.

Lemma init_consistent : consistent init.
Proof.
  split_and!; simpl; [lia| |eauto].
  intros [|i] s Hi Hne; [done|]. by destruct i.
Qed.

Lemma step_consistent (st : State) (ev : Event) :
  consistent st → consistent (step st ev).
Proof.
  intros Hst. pose proof Hst as (Hws & Hothers & Hcur).
  destruct ev as [i|i|].
  - (* Opened *)
    simpl. destruct (sockets st !! i) as [[[] l]|] eqn:Hi;
      try by split_and!.
    split_and!; cbn [sockets ws mounted].
    + by rewrite length_alter.
    + intros j s Hj Hne. destruct (decide (i = j)) as [->|Hij].
      * rewrite list_lookup_alter_eq, Hi in Hj. injection Hj as <-.
        destruct (Hothers j _ Hi Hne) as [?|[? ?]]; [done|]. by right.
      * rewrite list_lookup_alter_ne in Hj by done. eauto.
    + intros Hm. destruct (Hcur Hm) as (s & Hs & Hl).
      destruct (decide (i = ws st)) as [->|Hij].
      * rewrite list_lookup_alter_eq, Hs. eexists. split; [done|]. done.
      * rewrite list_lookup_alter_ne by done. eauto.
  - (* CloseEvent *)
    destruct (sockets st !! i) as [s|] eqn:Hi;
      [|rewrite step_close_noop; [by split_and!|by intros ?; rewrite Hi]].
    destruct (decide (readyState s = CLOSED)) as [Hc|Hne].
    { rewrite step_close_noop; [by split_and!|]. intros s'. rewrite Hi. congruence. }
    destruct (reconnects_on_close s) eqn:Hl.
    + assert (i = ws st) as ->.
      { destruct (decide (i = ws st)) as [|Hi']; [done|].
        destruct (Hothers i s Hi Hi') as [?|[_ ?]]; congruence. }
      rewrite (step_close_reconnect st s Hi Hne Hl).
      destruct (mounted st) eqn:Hm; split_and!; cbn [sockets ws mounted].
      * rewrite length_app, length_alter. simpl. lia.
      * intros j s' Hj Hne'. left.
        rewrite lookup_app_l in Hj
          by (rewrite length_alter; apply lookup_lt_Some in Hj;
              rewrite length_app, length_alter in Hj; simpl in Hj; lia).
        destruct (decide (ws st = j)) as [<-|Hij].
        -- rewrite list_lookup_alter_eq, Hi in Hj. by injection Hj as <-.
        -- rewrite list_lookup_alter_ne in Hj by done.
           destruct (Hothers j s' Hj ltac:(done)) as [?|[? _]]; congruence.
      * intros _. exists (mkSocket CONNECTING true). split; [|done].
        apply list_lookup_middle. by rewrite length_alter.
      * rewrite length_app, length_alter. simpl. lia.
      * intros j s' Hj Hne'.
        apply lookup_snoc_Some in Hj as [[Hlt Hj]|[_ <-]]; [|by right].
        rewrite list_lookup_alter_ne in Hj by done. eauto.
      * done.
    + rewrite (step_close_plain st i s Hi Hne Hl).
      split_and!; cbn [sockets ws mounted].
      * by rewrite length_alter.
      * intros j s' Hj Hne'. destruct (decide (i = j)) as [->|Hij].
        -- rewrite list_lookup_alter_eq, Hi in Hj. injection Hj as <-. by left.
        -- rewrite list_lookup_alter_ne in Hj by done. eauto.
      * intros Hm. destruct (Hcur Hm) as (s' & Hs' & Hl').
        destruct (decide (i = ws st)) as [->|Hij].
        -- rewrite list_lookup_alter_eq, Hs'. eexists. split; [done|]. done.
        -- rewrite list_lookup_alter_ne by done. eauto.
  - (* Unmounted *)
    simpl. destruct (mounted st) eqn:Hm; [|done].
    split_and!; cbn [sockets ws mounted].
    + by rewrite length_alter.
    + intros j s Hj Hne. rewrite list_lookup_alter_ne in Hj by done.
      destruct (Hothers j s Hj Hne) as [?|[? _]]; [by left|congruence].
    + done.
Qed.

Lemma reachable_consistent (st : State) : reachable st → consistent st.
Proof.
  induction 1; [apply init_consistent|by apply step_consistent].
Qed.

Lemma reachable_exec_push (st : State) (evs : list Event) :
  reachable st → reachable (exec st evs).
Proof.
  revert st. induction evs as [|ev evs IH]; intros st Hst; simpl; [done|].
  apply IH. by constructor.
Qed.

(** X7: while the component is mounted, the only connection that is open or
    being opened is the socket in [ws]: every other socket ever constructed
    is closed. *)
Theorem single_connection_while_mounted (st : State) (i : nat) (s : Socket) :
  reachable st → mounted st = true →
  sockets st !! i = Some s → live s = true → i = ws st.
Proof.
  intros Hreach Hm Hi Hlive.
  destruct (reachable_consistent st Hreach) as (_ & Hothers & _).
  destruct (decide (i = ws st)) as [|Hne]; [done|].
  destruct (Hothers i s Hi Hne) as [Hc|[? _]]; [|congruence].
  unfold live in Hlive. by rewrite Hc in Hlive.
Qed.

(** Without a drop of the connection in [ws], and after unmounting without
    an armed socket, no socket is constructed. *)
Lemma unmounted_step_bound (st : State) (ev : Event) :
  consistent st → mounted st = false →
  mounted (step st ev) = false ∧
  length (sockets (step st ev)) + (if armed (step st ev) then 1 else 0)
  ≤ length (sockets st) + (if armed st then 1 else 0).
Proof.
  intros (Hws & Hothers & _) Hm. destruct ev as [i|i|].
  - simpl. destruct (sockets st !! i) as [[[] l]|] eqn:Hi; try done.
    split; [done|]. cbn [sockets]. rewrite length_alter.
    unfold armed. cbn [sockets ws].
    destruct (decide (i = ws st)) as [->|Hne].
    + rewrite list_lookup_alter_eq, Hi. done.
    + by rewrite list_lookup_alter_ne.
  - destruct (sockets st !! i) as [s|] eqn:Hi;
      [|rewrite step_close_noop; [done|by intros ?; rewrite Hi]].
    destruct (decide (readyState s = CLOSED)) as [Hc|Hne].
    { rewrite step_close_noop; [done|]. intros s'. rewrite Hi. congruence. }
    destruct (reconnects_on_close s) eqn:Hl.
    + assert (i = ws st) as ->.
      { destruct (decide (i = ws st)) as [|Hi']; [done|].
        destruct (Hothers i s Hi Hi') as [?|[_ ?]]; congruence. }
      rewrite (step_close_reconnect st s Hi Hne Hl), Hm.
      split; [done|]. cbn [sockets]. rewrite length_app, length_alter.
      unfold armed. cbn [sockets ws].
      rewrite lookup_app_l by (by rewrite length_alter).
      rewrite list_lookup_alter_eq, Hi. simpl.
      destruct s as [[] l]; simpl in *; try done; subst l; simpl; lia.
    + rewrite (step_close_plain st i s Hi Hne Hl).
      split; [done|]. cbn [sockets]. rewrite length_alter.
      unfold armed. cbn [sockets ws].
      destruct (decide (i = ws st)) as [->|Hne'].
      * rewrite list_lookup_alter_eq, Hi. simpl. lia.
      * by rewrite list_lookup_alter_ne.
  - simpl. by rewrite Hm.
Qed.

Lemma unmounted_exec_bound (evs : list Event) (st : State) :
  consistent st → mounted st = false →
  length (sockets (exec st evs)) ≤ length (sockets st) + (if armed st then 1 else 0).
Proof.
  revert st. induction evs as [|ev evs IH]; intros st Hst Hm; [simpl; lia|].
  change (exec st (ev :: evs)) with (exec (step st ev) evs).
  destruct (unmounted_step_bound st ev Hst Hm) as [Hm' Hle].
  specialize (IH (step st ev) (step_consistent st ev Hst) Hm').
  destruct (armed (step st ev)), (armed st); lia.
Qed.

(** X8: after the component is unmounted, at most one more socket is ever
    constructed, whatever the sockets do afterwards. *)
Theorem unmount_leaks_at_most_one_socket (st : State) (evs : list Event) :
  reachable st →
  length (sockets (exec (step st Unmounted) evs)) ≤ S (length (sockets st)).
Proof.
  intros Hreach.
  pose proof (reachable_consistent _ (reachable_step st Unmounted Hreach)) as Hc.
  destruct (mounted st) eqn:Hm.
  - pose proof (unmounted_exec_bound evs (step st Unmounted) Hc) as Hle.
    simpl in *. rewrite Hm in *. cbn [sockets mounted] in Hle.
    rewrite length_alter in Hle. specialize (Hle eq_refl).
    destruct (armed _); lia.
  - pose proof (unmounted_exec_bound evs (step st Unmounted) Hc) as Hle.
    simpl in *. rewrite Hm in *. specialize (Hle Hm).
    destruct (armed _); lia.
Qed.

(** X9: reconnecting has no cap: from the first render, however often the
    connection in [ws] drops, the effect has constructed one more socket,
    put it in [ws] and attached the listener to it. *)
Theorem reconnect_has_no_cap (n : nat) :
  mounted (Nat.iter n drop init) = true ∧
  ws (Nat.iter n drop init) = n ∧
  length (sockets (Nat.iter n drop init)) = S n ∧
  sockets (Nat.iter n drop init) !! n = Some (mkSocket CONNECTING true).
Proof.
  induction n as [|n (Hm & Hws & Hlen & Hlast)]; [done|].
  rewrite !Nat.iter_succ. set (st := Nat.iter n drop init) in *.
  assert (drop st
          = mkState true
              (alter (setReadyState CLOSED) (ws st) (sockets st)
               ++ [mkSocket CONNECTING true])
              (length (sockets st))) as ->.
  { unfold drop. rewrite <-Hws in Hlast.
    rewrite (step_close_reconnect st _ Hlast) by done. by rewrite Hm. }
  cbn [mounted ws sockets].
  rewrite length_app, length_alter, Hlen. simpl.
  split_and!; [done|done|lia|].
  apply list_lookup_middle. by rewrite length_alter.
Qed.

End PushChannelFacts.

(** X7 (witness): after a reconnect, the live socket is the one in [ws]. *)
Lemma single_connection_while_mounted_witness :
  1 = PushChannel.ws
        (PushChannel.exec PushChannel.init
           [PushChannel.Opened 0; PushChannel.CloseEvent 0; PushChannel.Opened 1]).
Proof.
  apply (single_connection_while_mounted
           (PushChannel.exec PushChannel.init
              [PushChannel.Opened 0; PushChannel.CloseEvent 0; PushChannel.Opened 1])
           1 (PushChannel.mkSocket PushChannel.OPEN true));
    [|reflexivity..].
  apply reachable_exec_push, PushChannel.reachable_init.
Defined.

(** X8 (witness): unmounting with the connection open, then its ["close"]
    event, a second ["close"] event and the new connection opening. *)
Lemma unmount_leaks_at_most_one_socket_witness :
  length
    (PushChannel.sockets
       (PushChannel.exec
          (PushChannel.step
             (PushChannel.exec PushChannel.init [PushChannel.Opened 0])
             PushChannel.Unmounted)
          [ PushChannel.CloseEvent 0; PushChannel.CloseEvent 0;
            PushChannel.Opened 1; PushChannel.CloseEvent 1 ]))
  ≤ 2.
Proof.
  apply (unmount_leaks_at_most_one_socket
           (PushChannel.exec PushChannel.init [PushChannel.Opened 0])
           [ PushChannel.CloseEvent 0; PushChannel.CloseEvent 0;
             PushChannel.Opened 1; PushChannel.CloseEvent 1 ]).
  apply reachable_exec_push, PushChannel.reachable_init.
Defined.

(* ===================================================================== *)
(** ** Facts about what is rendered and when a submission is sent *)
(* ===================================================================== *)

Section ContentFacts.
Import Assignment SubmitForm AssignmentContent.
Context {Submission IAssignment IStudent : Type}.

#[local] Abbreviation Context_ := (Context_ Submission).

(** X10: whenever [AssignmentContent] renders the panel with the submit form,
    the context holds a current assignment and a course, so evaluating
    [disabledReason] (with its [course!.instructors]) throws nothing. *)
Theorem rendered_form_never_throws
    (ctx : Context_) (assignments : undefinable (option (list IAssignment)))
    (student : undefinable IStudent) (st : State) :
  render
    (AssignmentProvider.loading (assignment ctx) assignments student (course ctx))
    assignments (assignment ctx)
  = AssignmentPanel →
  (∃ a, assignment ctx = Defined (Some a)) ∧
  (∃ c, course ctx = Defined c) ∧
  ∃ reason, disabledReason ctx st = Normal reason.
Proof.
  unfold render, AssignmentProvider.loading, disabledReason.
  destruct (assignment ctx) as [|[a|]], assignments as [|[l|]],
    student, (course ctx) as [|c]; simpl; try discriminate.
  intros _. split_and!; [eauto..|].
  destruct (disabled _ _), (submitting st), (isAvailable a), (isClosed a),
    (String.eqb (summaryText st) ""); simpl; eauto.
Qed.

(** X11: a request to submit is sent by the key handler only for the Enter key,
    with no upload in progress, a summary typed in, an assignment that is
    available and not closed and a path; it carries the summary and the
    description as typed. *)
Theorem request_only_when_enabled
    (key : string) (ok : bool) (ctx : Context_) (st : State)
    (p s d : string) :
  ApiSubmitAssignment p s d ∈ effects (onKeyDown key ok ctx st) →
  ApiSubmitAssignment p s d ∉ effects st →
  key = "Enter" ∧ submitting st = false ∧
  s = summaryText st ∧ s ≠ "" ∧ d = descriptionText st ∧
  path ctx = Some p ∧ p ≠ "" ∧
  ∃ a, assignment ctx = Defined (Some a) ∧
       isAvailable a = true ∧ isClosed a = false.
Proof.
  unfold onKeyDown. intros Hin Hnot.
  destruct (disabled ctx st) eqn:Hd; [done|].
  destruct (String.eqb_spec key "Enter") as [->|]; [|done].
  unfold disabled in Hd.
  apply orb_false_elim in Hd as [Hd Hclosed].
  apply orb_false_elim in Hd as [Hd Havail].
  apply orb_false_elim in Hd as [Hsub Hsum].
  apply String.eqb_neq in Hsum.
  assert (∃ a, assignment ctx = Defined (Some a) ∧
               isAvailable a = true ∧ isClosed a = false) as Ha.
  { destruct (assignment ctx) as [|[a|]]; simpl in *; try done.
    exists a. by destruct (isAvailable a). }
  destruct (path ctx) as [p'|] eqn:Hp.
  - destruct (String.eqb_spec p' "") as [->|Hne].
    + unfold submitAssignment in Hin. rewrite Hp in Hin. simpl in Hin.
      apply elem_of_cons in Hin as [|]; done.
    + rewrite (submit_effects ok ctx st p' Hp Hne) in Hin.
      apply elem_of_app in Hin as [Hin|]; [|done].
      destruct ok;
        repeat (apply elem_of_cons in Hin as [Hin|Hin];
                [try discriminate|]);
        try (by apply elem_of_nil in Hin);
        injection Hin as -> -> ->; by split_and!.
  - unfold submitAssignment in Hin. rewrite Hp in Hin. simpl in Hin.
    apply elem_of_cons in Hin as [|]; done.
Qed.

End ContentFacts.

Section ApiFacts.
Import Api AssignmentContent.
Context {Submission SubmissionResponse : Type}.
Context (Submission_fromResponse : SubmissionResponse → Submission).
Context (Date_parse : string → option Z).
Context {ServerSettingsResponse IServerSettings : Type}.
Context (ServerSettings_fromResponse : ServerSettingsResponse → IServerSettings).

#[local] Abbreviation getAssignments :=
  (getAssignments Submission_fromResponse Date_parse).
#[local] Abbreviation getServerSettings :=
  (getServerSettings ServerSettings_fromResponse).

(** X12: what the content shows for a fetched snapshot depends only on which of
    the two fields of the body are [null]: no list of assignments gives the
    no-repository warning, a list (an empty one too) without a current
    assignment the plain warning, and both the panel.  The list keeps its
    length. *)
Theorem content_after_fetch (body : AssignmentsBody SubmissionResponse) :
  ∃ v, getAssignments (inl body) = inl v ∧
       length <$> AssignmentProvider.r_assignments v
       = length <$> assignments body ∧
       render false (Defined (AssignmentProvider.r_assignments v))
         (Defined (AssignmentProvider.r_currentAssignment v))
       = match assignments body, current_assignment body with
         | None, _ => NoAssignmentWarning true
         | Some _, None => NoAssignmentWarning false
         | Some _, Some _ => AssignmentPanel
         end.
Proof.
  eexists. split; [done|]. simpl.
  destruct (assignments body) as [l|], (current_assignment body) as [c|];
    simpl; by rewrite ?length_fmap.
Qed.

(** X13: [getServerSettings] never turns a failed request into a result: a
    response error keeps its status, and its message unless the status is
    404 (then it is the installation hint, and nothing is logged); any
    other error is thrown on as it is; and a result is the converted body
    of a successful request. *)
Theorem getServerSettings_keeps_failures
    (res : ServerSettingsResponse + RequestError) :
  (∀ settings, (getServerSettings res).1 = inl settings →
     ∃ data, res = inl data ∧ settings = ServerSettings_fromResponse data) ∧
  (∀ status message, res = inr (ResponseError status message) →
     (getServerSettings res).1
     = inr (ResponseError status
              (if decide (status = 404%Z) then unavailable_message else message)) ∧
     (getServerSettings res).2
     = if decide (status = 404%Z) then []
       else [("Failed to get the server extension settings", message)]) ∧
  (∀ e, res = inr (OtherError e) →
     getServerSettings res = (inr (OtherError e), [])).
Proof.
  split_and!.
  - intros settings. destruct res as [data|[status message|e]]; simpl.
    + intros [= <-]. eauto.
    + by destruct (status =? 404)%Z.
    + done.
  - intros status message ->. simpl.
    destruct (Z.eqb_spec status 404); by case_decide.
  - by intros e ->.
Qed.

End ApiFacts.

Section PanelTraceFacts.
Import AssignmentInfo.
Context (Date_parse : string → option Z).
Context (addLocalTimezone : string → string).

#[local] Abbreviation step := (step Date_parse addLocalTimezone).
#[local] Abbreviation exec := (exec Date_parse addLocalTimezone).
#[local] Abbreviation update := (update addLocalTimezone).
#[local] Abbreviation rejected := (rejected Date_parse).
#[local] Abbreviation accepted_value := (accepted_value Date_parse).
#[local] Abbreviation last_accepted := (last_accepted Date_parse).

Lemma step_controlled (a : AssignmentView) (st : State) (f : Field) (ev : Event) :
  controlled f (step a st ev)
  = default (controlled f st) (accepted_value a f ev).
Proof.
  destruct ev as [g now v|g now]; simpl.
  - destruct g, f; simpl;
      unfold AssignmentInfo.onAvailableChange, AssignmentInfo.onDueChange;
      try destruct (available_rejected Date_parse a v);
      try destruct (due_rejected Date_parse a v); simpl; try done;
      try destruct (call leading now v (onAvailableDateChanged st));
      try destruct (call leading now v (onDueDateChanged st)); done.
  - destruct g, f; simpl; unfold availableTimer, dueTimer;
      try destruct (timerExpired now (onAvailableDateChanged st));
      try destruct (timerExpired now (onDueDateChanged st)); done.
Qed.

(** X14: while the assignment stays the same, each date field shows the value of
    the last edit that its handler accepted; rejected edits, edits of the
    other field and timers never change it. *)
Theorem controlled_shows_last_accepted_edit
    (a : AssignmentView) (f : Field) (evs : list Event) (st : State) :
  controlled f (exec a st evs) = last_accepted a f evs (controlled f st).
Proof.
  revert st. induction evs as [|ev evs IH]; intros st; [done|].
  change (exec a st (ev :: evs)) with (exec a (step a st ev) evs).
  rewrite IH, step_controlled. done.
Qed.

(** X15: clearing a date field is never rejected by the ordering check (the
    Invalid Date of the empty string compares false with every date), the
    field then shows the empty value, and the request built for it carries
    [null]. *)
Theorem clearing_a_date_is_accepted
    (a : AssignmentView) (f : Field) (now : Z) (st : State) :
  Date_parse "" = None →
  rejected a f "" = false ∧
  controlled f (step a st (Edit f now "")) = "" ∧
  update a f "" = mkRequest (name a) f None.
Proof.
  intros Hnan.
  assert (rejected a f "" = false) as Hrej.
  { destruct f; simpl; unfold available_rejected, due_rejected;
      [destruct (dueDate a) as [d|]|destruct (availableDate a) as [d|]];
      try done; rewrite Hnan; unfold num_ge, num_le; simpl;
      by destruct (getTime d). }
  split_and!; [done| |done].
  rewrite step_controlled. simpl. rewrite Hrej.
  by destruct f.
Qed.

End PanelTraceFacts.

(** X10 (witness): the past-due sample assignment with all four slots filled. *)
Lemma rendered_form_never_throws_witness :
  ∃ reason,
    SubmitForm.disabledReason Samples.form_context Samples.typed
    = SubmitForm.Normal reason.
Proof.
  exact (proj2 (proj2 (rendered_form_never_throws Samples.form_context
                         (Defined (Some [Samples.two_submissions]))
                         (Defined "student") Samples.typed eq_refl))).
Defined.

(** X11 (witness): Enter is pressed for an open assignment with a summary typed
    in. *)
Lemma request_only_when_enabled_witness :
  "Enter" = "Enter" ∧ SubmitForm.submitting Samples.typed = false ∧
  "final version" = SubmitForm.summaryText Samples.typed ∧
  "final version" ≠ "" ∧
  "fixed question 2" = SubmitForm.descriptionText Samples.typed ∧
  SubmitForm.path
    (SubmitForm.mkContext (Defined (Some Samples.two_submissions))
       (Defined (SubmitForm.mkCourse 1)) (Some "class/hw1"))
  = Some "class/hw1" ∧
  "class/hw1" ≠ "" ∧
  ∃ a, SubmitForm.assignment
         (SubmitForm.mkContext (Defined (Some Samples.two_submissions))
            (Defined (SubmitForm.mkCourse 1)) (Some "class/hw1"))
       = Defined (Some a) ∧
       Assignment.isAvailable a = true ∧ Assignment.isClosed a = false.
Proof.
  apply (request_only_when_enabled "Enter" true
           (SubmitForm.mkContext (Defined (Some Samples.two_submissions))
              (Defined (SubmitForm.mkCourse 1)) (Some "class/hw1"))
           Samples.typed "class/hw1" "final version" "fixed question 2").
  - simpl. repeat first [apply list_elem_of_here | apply list_elem_of_further].
  - apply not_elem_of_nil.
Defined.

(** X13 (witness): a 500 response. *)
Lemma getServerSettings_keeps_failures_witness :
  (Api.getServerSettings (λ s : string, s)
     (inr (Api.ResponseError 500 "Internal Server Error"))).1
  = inr (Api.ResponseError 500 "Internal Server Error").
Proof.
  exact (proj1 (proj1 (proj2 (getServerSettings_keeps_failures (λ s : string, s)
                                (inr (Api.ResponseError 500 "Internal Server Error"))))
                  500%Z "Internal Server Error" eq_refl)).
Defined.

(** X15 (witness): the due date of the sample view is cleared. *)
Lemma clearing_a_date_is_accepted_witness :
  AssignmentInfo.rejected Samples.sample_parse Samples.view
    AssignmentInfo.due_date "" = false ∧
  AssignmentInfo.controlled AssignmentInfo.due_date
    (AssignmentInfo.step Samples.sample_parse Samples.addLocalTimezone
       Samples.view Samples.panel
       (AssignmentInfo.Edit AssignmentInfo.due_date 0 ""))
  = "" ∧
  AssignmentInfo.update Samples.addLocalTimezone Samples.view
    AssignmentInfo.due_date ""
  = AssignmentInfo.mkRequest "hw1" AssignmentInfo.due_date None.
Proof.
  apply (clearing_a_date_is_accepted Samples.sample_parse
           Samples.addLocalTimezone Samples.view AssignmentInfo.due_date 0
           Samples.panel).
  reflexivity.
Defined.

Section SpinnerFacts.
Import AssignmentProvider AssignmentContent.
Context {IAssignment ICurrentAssignment IStudent ICourse : Type}.

#[local] Abbreviation State := (State IAssignment ICurrentAssignment).

(** X16: a failed fetch of the live run, and a change of path, each put the
    content back to the loading spinner, whatever was shown before and
    whatever the course domain holds. *)
Theorem failed_poll_and_path_change_show_spinner
    (st : State) (student : undefinable IStudent) (course : undefinable ICourse) :
  (∀ i r e, runs st !! i = Some r → status r = Fetching → cancelled r = false →
     shown (fetchSettled i (Rejected e) st) student course = Spinner) ∧
  (∀ p, mounted st = true → p ≠ currentPath st →
     shown (setCurrentPath p st) student course = Spinner).
Proof.
  split.
  - intros i r e Hi Hs Hc. unfold shown, fetchSettled.
    rewrite Hi, Hs. unfold resume. by rewrite Hc.
  - intros p Hm Hp. unfold shown, setCurrentPath.
    rewrite Hm. simpl. by rewrite decide_False.
Qed.

End SpinnerFacts.

(** X16 (witness): the snapshot of ["hw1"] is shown, then the next fetch
    fails. *)
Lemma failed_poll_and_path_change_show_spinner_witness :
  let st :=
    AssignmentProvider.exec AssignmentProvider.init
      [ AssignmentProvider.PathChanged (Some "hw1");
        AssignmentProvider.TimerFired 1;
        AssignmentProvider.FetchSettled 1
          (AssignmentProvider.Fulfilled Samples.snapshot_A);
        AssignmentProvider.TimerFired 1 ] in
  AssignmentContent.shown st (Defined "student") (Defined "course")
  = AssignmentContent.AssignmentPanel ∧
  AssignmentContent.shown (AssignmentProvider.fetchSettled 1
           (AssignmentProvider.Rejected "Failed to fetch") st)
    (Defined "student") (Defined "course")
  = AssignmentContent.Spinner.
Proof.
  split; [reflexivity|].
  apply (proj1 (failed_poll_and_path_change_show_spinner
                  (AssignmentProvider.exec AssignmentProvider.init
                     [ AssignmentProvider.PathChanged (Some "hw1");
                       AssignmentProvider.TimerFired 1;
                       AssignmentProvider.FetchSettled 1
                         (AssignmentProvider.Fulfilled Samples.snapshot_A);
                       AssignmentProvider.TimerFired 1 ])
                  (Defined "student") (Defined "course"))
           1 (AssignmentProvider.mkRun (Some "hw1") false AssignmentProvider.Fetching)
           "Failed to fetch");
    reflexivity.
Defined.
